(** * DOM helpers of z-wf-starter: element finders, active-script locator,
    style patcher.

    The helpers are thin wrappers around host primitives
    ([querySelector], [querySelectorAll], [console.debug]/[console.error],
    [CSSStyleDeclaration]).  The host is modelled as the DOM, Console and
    CSSOM standards describe it; the helpers are transcribed from the
    TypeScript sources on top of that model. *)

From Stdlib Require Import Ascii String.
From stdpp Require Import base option list strings gmap.


(** ** JavaScript strings and values *)

Module JS.

(** The character U+0022, written by its code. *)
Definition dquote : string := String "034"%char EmptyString.

Definition is_ascii_upper (c : ascii) : bool :=
  let n := nat_of_ascii c in ((65 <=? n) && (n <=? 90))%nat.

Definition is_ascii_lower (c : ascii) : bool :=
  let n := nat_of_ascii c in ((97 <=? n) && (n <=? 122))%nat.

Definition ascii_to_upper (c : ascii) : ascii :=
  if is_ascii_lower c then ascii_of_nat (nat_of_ascii c - 32) else c.

Definition ascii_to_lower (c : ascii) : ascii :=
  if is_ascii_upper c then ascii_of_nat (nat_of_ascii c + 32) else c.

(** [String.prototype.toUpperCase], on ASCII text. *)
Fixpoint toUpperCase (s : string) : string :=
  match s with
  | EmptyString => EmptyString
  | String c s' => String (ascii_to_upper c) (toUpperCase s')
  end.

(** "Converted to ASCII lowercase" of the Infra standard. *)
Fixpoint ascii_lowercase (s : string) : string :=
  match s with
  | EmptyString => EmptyString
  | String c s' => String (ascii_to_lower c) (ascii_lowercase s')
  end.

(** Does the string contain the character? *)
Fixpoint includes (c : ascii) (s : string) : bool :=
  match s with
  | EmptyString => false
  | String c' s' => Ascii.eqb c c' || includes c s'
  end.

(** An abrupt or normal completion of a call: a thrown exception of
    type [E], or a returned value. *)
Inductive completion (E A : Type) : Type :=
| Normal (a : A)
| Throw (e : E).
Global Arguments Normal {E A} a.
Global Arguments Throw {E A} e.

End JS.
Import JS.

(** ** The host: document tree and console *)

(** What the finders need from the page they run in.  [querySelectorAll]
    gives the matches of a selector below a root in document order, or
    throws (a [SyntaxError] DOMException on a selector the host cannot
    parse).  [import_meta_url] is the URL of the module that contains
    [getActiveScript]. *)
Class Host : Type := {
  Node : Type;
  Exn : Type;
  document : Node;
  querySelectorAll : Node → string → completion Exn (list Node);
  import_meta_url : string;
}.

Inductive ConsoleMethod : Type := console_debug | console_error.

(** One call of a console method: [method(message, extra)], with nodes of
    type [N]. *)
Record ConsoleCall (N : Type) : Type := {
  call_method : ConsoleMethod;
  call_message : string;
  call_extra : option N;
}.
Global Arguments Build_ConsoleCall {N} _ _ _.
Global Arguments call_method {N} _.
Global Arguments call_message {N} _.
Global Arguments call_extra {N} _.

Section dom.
Context `{Host}.

(** The console, as the list of calls made so far (oldest first). *)
Definition Console : Type := list (ConsoleCall Node).

(** Computations that may write to the console and may throw. *)
Definition IO (A : Type) : Type := Console → completion Exn A * Console.

Definition ret {A} (a : A) : IO A := λ c, (Normal a, c).

Definition bind {A B} (m : IO A) (k : A → IO B) : IO B :=
  λ c, match m c with
       | (Normal a, c') => k a c'
       | (Throw e, c') => (Throw e, c')
       end.

(** A host call that does not touch the console. *)
Definition lift_host {A} (r : completion Exn A) : IO A := λ c, (r, c).

Definition console_call (m : ConsoleMethod) (msg : string)
    (extra : option Node) : IO unit :=
  λ c, (Normal tt,
        c ++ [{| call_method := m; call_message := msg; call_extra := extra |}]).

(** [ParentNode.querySelector]: the first match in document order, or
    [null]. *)
Definition querySelector (root : Node) (selector : string)
    : completion Exn (option Node) :=
  match querySelectorAll root selector with
  | Normal l => Normal (head l)
  | Throw e => Throw e
  end.

End dom.

Notation "'let*' x ':=' m 'in' k" := (bind m (λ x, k))
  (at level 10, x name, m at level 100, k at level 200, only parsing).
Notation "m ';;' k" := (bind m (λ _, k))
  (at level 100, k at level 200, right associativity, only parsing).

(** ** get-html-element.ts *)

(** The [log] option: ["debug" | "error" | false]. *)
Inductive LogLevel : Type := log_debug | log_error | log_false.

(** [GetHtmlElementProps], with nodes of type [N]; an omitted optional
    field is [None] ([undefined]). *)
Record GetHtmlElementProps (N : Type) : Type := {
  selector : string;
  parent : option N;
  log : option LogLevel;
}.
Global Arguments Build_GetHtmlElementProps {N} _ _ _.
Global Arguments selector {N} _.
Global Arguments parent {N} _.
Global Arguments log {N} _.

Section get_html_element.
Context `{Host}.

(** The text of a level that is a string. *)
Definition level_text (l : LogLevel) : string :=
  match l with
  | log_debug => "debug"
  | log_error => "error"
  | log_false => "false"
  end.

(** [log === "debug" ? console.debug : console.error] *)
Definition consoleMethod (l : LogLevel) : ConsoleMethod :=
  match l with
  | log_debug => console_debug
  | _ => console_error
  end.

(** [parent || document]: an element is truthy, [undefined] is not. *)
Definition parent_or_document (parent : option Node) : Node :=
  match parent with
  | Some p => p
  | None => document
  end.

(** [parent !== undefined ? "the specified parent element:" : "the document."] *)
Definition where_text (parent : option Node) : string :=
  match parent with
  | Some _ => "the specified parent element:"
  | None => "the document."
  end.

Definition element_not_found_message (l : LogLevel) (selector : string)
    (parent : option Node) : string :=
  toUpperCase (level_text l) +:+ ": Element with selector " +:+ dquote
    +:+ selector +:+ dquote +:+ " not found in " +:+ where_text parent.

Definition no_elements_found_message (l : LogLevel) (selector : string)
    (parent : option Node) : string :=
  toUpperCase (level_text l) +:+ ": No elements found with selector "
    +:+ dquote +:+ selector +:+ dquote +:+ " in " +:+ where_text parent.

Definition getHtmlElement (props : GetHtmlElementProps Node) : IO (option Node) :=
  let selector := selector props in
  let parent := parent props in
  let log := default log_debug (log props) in
  let* targetElement :=
    lift_host (querySelector (parent_or_document parent) selector) in
  match targetElement with
  | None =>
      match log with
      | log_false => ret None
      | _ =>
          console_call (consoleMethod log)
            (element_not_found_message log selector parent) parent;;
          ret None
      end
  | Some el => ret (Some el)
  end.

Definition getMultipleHtmlElements (props : GetHtmlElementProps Node)
    : IO (option (list Node)) :=
  let selector := selector props in
  let parent := parent props in
  let log := default log_debug (log props) in
  let* targetElements :=
    lift_host (querySelectorAll (parent_or_document parent) selector) in
  if (length targetElements =? 0)%nat then
    match log with
    | log_false => ret None
    | _ =>
        console_call (consoleMethod log)
          (no_elements_found_message log selector parent) parent;;
        ret None
    end
  else ret (Some targetElements).

(** get-active-script.ts *)

(** The template literal [`script[src="${currentModuleUrl}"]`]. *)
Definition script_selector (currentModuleUrl : string) : string :=
  "script[src=" +:+ dquote +:+ currentModuleUrl +:+ dquote +:+ "]".

Definition getActiveScript : IO (option Node) :=
  let currentModuleUrl := import_meta_url in
  getHtmlElement
    {| selector := script_selector currentModuleUrl;
       parent := None;
       log := None |}.

End get_html_element.

(** ** The text after an attribute value *)

(** The selector of the locator puts the module URL between double quotes.
    A string of CSS ends at the first double quote that no backslash
    escapes (and breaks at a line break); what follows it inside an
    attribute selector may only be white space, one identifier (the
    modifier [i] or [s]), white space and the closing bracket. *)
Module SelectorText.


(** A backslash or a line break. *)
Definition breaks_string (c : ascii) : bool :=
  Ascii.eqb c "\" || Ascii.eqb c "010" || Ascii.eqb c "013" || Ascii.eqb c "012".


Definition is_digit (c : ascii) : bool :=
  let n := nat_of_ascii c in ((48 <=? n) && (n <=? 57))%nat.







End SelectorText.
Import SelectorText.

Section selector_syntax.
Context `{Host}.


End selector_syntax.

(** ** The inline style of an element (CSSOM) *)

(** What the style object needs from the CSS engine of the host.
    [supported_properties] is the table of supported property names
    (lowercase, as CSS writes them), longhands and shorthands.
    [longhands p] lists the longhands that a shorthand [p] stands for, in
    canonical order, and is empty when [p] is a longhand.  [parse_value]
    is the grammar of a longhand: it gives the serialisation of a value it
    accepts and [None] for a value it rejects.  [expand_shorthand] is the
    grammar of a shorthand: it gives the values of the longhands, in their
    order.  [serialize_shorthand] gives the value of a shorthand from the
    values of its longhands. *)
Class CssEngine : Type := {
  supported_properties : list string;
  longhands : string → list string;
  parse_value : string → string → option string;
  expand_shorthand : string → string → option (list string);
  serialize_shorthand : string → list string → string;
}.

Module JSValue.

(** The values the style patcher handles.  A number is given by the text
    that [Number::toString] gives for it: ["0"] for both zeros, ["NaN"],
    ["0.5"], ["12"]. *)
Inductive jsval : Type :=
| js_undefined
| js_null
| js_string (s : string)
| js_number (text : string).

#[global] Instance jsval_eq_dec : EqDecision jsval.
Proof. solve_decision. Defined.

Definition truthy (v : jsval) : bool :=
  match v with
  | js_string s => negb (String.eqb s "")
  | js_number text => negb (String.eqb text "0" || String.eqb text "NaN")
  | _ => false
  end.

(** [a || b] *)
Definition js_or (a b : jsval) : jsval := if truthy a then a else b.

(** Conversion to a [[LegacyNullToEmptyString] CSSOMString] argument. *)
Definition to_CSSOMString (v : jsval) : string :=
  match v with
  | js_undefined => "undefined"
  | js_null => ""
  | js_string s => s
  | js_number text => text
  end.

(** A plain object, as the list of its own properties in the order
    [Object.keys] lists them: [js_object] with string values (what
    [prevValues] holds), [style_map] with the values a style map can hold
    ([Record<string, string>] has strings; [CSSProperties] of csstype has
    strings, numbers and [undefined]). *)
Definition js_object : Type := list (string * string).
Definition style_map : Type := list (string * jsval).

Definition Object_keys {V : Type} (o : list (string * V)) : list string := o.*1.

(** [o[key]] *)
Fixpoint obj_get (key : string) (o : style_map) : jsval :=
  match o with
  | [] => js_undefined
  | (k, v) :: o' => if String.eqb k key then v else obj_get key o'
  end.

(** [o[key] = v]: an existing property keeps its place, a new one goes
    last. *)
Fixpoint obj_set (key : string) (v : string) (o : js_object) : js_object :=
  match o with
  | [] => [(key, v)]
  | (k, w) :: o' =>
      if String.eqb k key then (k, v) :: o' else (k, w) :: obj_set key v o'
  end.

End JSValue.
Import JSValue.

(** The declaration block behind [element.style], and the ordinary
    JavaScript properties that were put on the object itself.  A
    declaration is kept under its property name with its value and its
    important flag; the block of a style object holds declarations of
    longhands and custom properties.  The order of declarations only shows
    in [cssText] and [item], which the patcher never reads. *)
Record CSSStyleDeclaration : Type := {
  declarations : gmap string (string * bool);
  expandos : gmap string jsval;
}.

Record HTMLElement : Type := { style : CSSStyleDeclaration }.

(** The members of the [CSSStyleDeclaration] interface itself, the array
    indices and [__proto__]: assignment to them is not assignment to a
    property attribute ([cssText] replaces the whole block, read-only
    members and indices throw a [TypeError] in module code).  The model
    does not cover assignment to these keys; statements about assignment
    exclude them. *)
Fixpoint all_digits (s : string) : bool :=
  match s with
  | EmptyString => true
  | String c s' => is_digit c && all_digits s'
  end.

Definition own_member (key : string) : bool :=
  bool_decide (key ∈ ["cssText"; "length"; "parentRule"; "item";
                      "getPropertyValue"; "getPropertyPriority";
                      "setProperty"; "removeProperty"; "__proto__"])
  || (negb (String.eqb key "") && all_digits key).

Section cssom.
Context `{CssEngine}.

Definition is_custom_property (property : string) : bool :=
  String.prefix "--" property.

Definition is_supported (property : string) : bool :=
  bool_decide (property ∈ supported_properties).

(** The name under which [getPropertyValue] and [setProperty] look a
    property up: a custom property is case-sensitive, any other name is
    converted to ASCII lowercase.  These methods take the name as CSS
    writes it: [getPropertyValue("backgroundColor")] looks for a
    declaration of [backgroundcolor]. *)
Definition css_name (property : string) : string :=
  if is_custom_property property then property else ascii_lowercase property.

(** The longhands behind a name: none for a custom property or a
    longhand. *)
Definition shorthand_longhands (name : string) : list string :=
  if is_custom_property name then [] else longhands name.

(** The declarations that a name stands for: its own, or those of its
    longhands. *)
Definition declaration_names (name : string) : list string :=
  match shorthand_longhands name with
  | [] => [name]
  | ls => ls
  end.

(** The declarations of all the names, if none is missing. *)
Fixpoint lookup_all (ds : gmap string (string * bool)) (names : list string)
    : option (list (string * bool)) :=
  match names with
  | [] => Some []
  | n :: names' =>
      match ds !! n, lookup_all ds names' with
      | Some d, Some rest => Some (d :: rest)
      | _, _ => None
      end
  end.

Definition same_flag (ds : list (string * bool)) : bool :=
  match ds with
  | [] => true
  | d :: ds' => forallb (λ d', Bool.eqb d'.2 d.2) ds'
  end.

(** [getPropertyValue(property)]: the value of the declaration; for a
    shorthand, the serialisation of its longhands when all of them are
    declared with the same important flag; the empty string otherwise. *)
Definition getPropertyValue (property : string) (s : CSSStyleDeclaration)
    : string :=
  let name := css_name property in
  match shorthand_longhands name with
  | [] =>
      match declarations s !! name with
      | Some (value, _) => value
      | None => ""
      end
  | ls =>
      match lookup_all (declarations s) ls with
      | Some ds => if same_flag ds then serialize_shorthand name ds.*1 else ""
      | None => ""
      end
  end.

Definition remove_declaration (name : string) (s : CSSStyleDeclaration)
    : CSSStyleDeclaration :=
  {| declarations := delete name (declarations s); expandos := expandos s |}.

Definition set_declaration (name value : string) (important : bool)
    (s : CSSStyleDeclaration) : CSSStyleDeclaration :=
  {| declarations := <[name := (value, important)]> (declarations s);
     expandos := expandos s |}.

Definition remove_declarations (names : list string) (s : CSSStyleDeclaration)
    : CSSStyleDeclaration :=
  fold_left (λ s name, remove_declaration name s) names s.

Definition set_declarations (ds : list (string * string)) (important : bool)
    (s : CSSStyleDeclaration) : CSSStyleDeclaration :=
  fold_left (λ s d, set_declaration d.1 d.2 important s) ds s.

(** [setProperty(property, value)] with the priority argument left out:
    a name that is neither custom nor supported is ignored; the empty
    string removes the property (for a shorthand, its longhands); a value
    outside the grammar is ignored; an accepted value is stored without
    the important flag (for a shorthand, in each of its longhands). *)
Definition setProperty (property : string) (value : jsval)
    (s : CSSStyleDeclaration) : CSSStyleDeclaration :=
  let value := to_CSSOMString value in
  let name := css_name property in
  if negb (is_custom_property name || is_supported name) then s
  else if String.eqb value "" then remove_declarations (declaration_names name) s
  else match shorthand_longhands name with
       | [] =>
           match parse_value name value with
           | None => s
           | Some v => set_declaration name v false s
           end
       | ls =>
           match expand_shorthand name value with
           | None => s
           | Some vs => set_declarations (zip ls vs) false s
           end
       end.

(** The "CSS property to IDL attribute" algorithm. *)
Fixpoint css_to_idl_loop (uppercase_next : bool) (property : string)
    : string :=
  match property with
  | EmptyString => EmptyString
  | String c rest =>
      if Ascii.eqb c "-" then css_to_idl_loop true rest
      else if uppercase_next
           then String (ascii_to_upper c) (css_to_idl_loop false rest)
           else String c (css_to_idl_loop false rest)
  end.

Definition css_property_to_idl_attribute (lowercase_first : bool)
    (property : string) : string :=
  css_to_idl_loop false
    (if lowercase_first then String.substring 1 (String.length property) property
     else property).

(** The attributes of the style object that stand for a supported
    property: the camel-cased attribute, the webkit-cased attribute of a
    [-webkit-] property, the dashed attribute of a property with a
    hyphen, and [cssFloat] for [float].  Attribute names are
    case-sensitive. *)
Definition attribute_names (property : string) : list string :=
  [css_property_to_idl_attribute false property]
  ++ (if String.prefix "-webkit-" property
      then [css_property_to_idl_attribute true property] else [])
  ++ (if includes "-" property then [property] else [])
  ++ (if String.eqb property "float" then ["cssFloat"] else []).

(** The property whose setter an assignment [style[key] = v] runs, if
    [key] is the attribute of a property. *)
Definition attribute_property (key : string) : option string :=
  if own_member key then None
  else find (λ property, bool_decide (key ∈ attribute_names property))
         supported_properties.

(** [style[key] = v]: the setter of a property attribute calls
    [setProperty] for its property; any other key becomes an ordinary
    property of the object and leaves the declarations alone (so does
    [style["--gap"] = v]: custom properties have no attribute).  For the
    keys of [own_member] this is not what a style object does; they are
    outside the model. *)
Definition style_assign (key : string) (v : jsval) (s : CSSStyleDeclaration)
    : CSSStyleDeclaration :=
  match attribute_property key with
  | Some property => setProperty property v s
  | None =>
      {| declarations := declarations s;
         expandos := <[key := v]> (expandos s) |}
  end.

(** Declarations as a style object holds them: every value is the
    serialisation of a value of its property, which is not empty and which
    the grammar reads back as it is. *)
Definition serialised (s : CSSStyleDeclaration) : Prop :=
  ∀ name v important,
    declarations s !! name = Some (v, important) →
    v ≠ "" ∧ parse_value name v = Some v.

(** [Object.assign(style, source)] *)
Definition Object_assign (s : CSSStyleDeclaration) (source : js_object)
    : CSSStyleDeclaration :=
  fold_left (λ s kv, style_assign kv.1 (js_string kv.2) s) source s.

(** An operation on the style object that, for every declaration and
    every own property, either stores something that does not depend on
    what was there or leaves it as it was. *)
Definition overwriting (f : CSSStyleDeclaration → CSSStyleDeclaration) : Prop :=
  ∀ s s',
    (∀ n, declarations (f s) !! n = declarations (f s') !! n
          ∨ (declarations (f s) !! n = declarations s !! n
             ∧ declarations (f s') !! n = declarations s' !! n))
    ∧ (∀ k, expandos (f s) !! k = expandos (f s') !! k
            ∨ (expandos (f s) !! k = expandos s !! k
               ∧ expandos (f s') !! k = expandos s' !! k)).

End cssom.

(** ** set-style.ts *)

(** The object [{ revert }]: the closure keeps [prevValues] (and the
    element it was made for). *)
Record RevertHandle : Type := { prevValues : js_object }.

Section revert.
Context `{CssEngine}.

(** [revert: () => { Object.assign(element.style, prevValues) }] *)
Definition revert (h : RevertHandle) (element : HTMLElement) : HTMLElement :=
  {| style := Object_assign (style element) (prevValues h) |}.

End revert.

(** The revision with [styles: Record<string, string>]. *)
Module StringKeys.
Section set_style.
Context `{CssEngine}.

(** The body of the [for] loop. *)
Definition patch (styles : style_map) (acc : HTMLElement * js_object)
    (key : string) : HTMLElement * js_object :=
  let '(element, prevValues) := acc in
  let prevValues := obj_set key (getPropertyValue key (style element)) prevValues in
  let element :=
    {| style := setProperty key (js_or (obj_get key styles) js_null)
                  (style element) |} in
  (element, prevValues).

Definition setStyle (element : HTMLElement) (styles : style_map)
    : HTMLElement * RevertHandle :=
  let '(element, prevValues) :=
    fold_left (patch styles) (Object_keys styles) (element, []) in
  (element, {| prevValues := prevValues |}).

End set_style.
End StringKeys.

(** The revision with [styles: CSSProperties]. *)
Module TypedKeys.
Section set_style.
Context `{CssEngine}.

Definition patch (styles : style_map) (acc : HTMLElement * js_object)
    (key : string) : HTMLElement * js_object :=
  let '(element, prevValues) := acc in
  let prevValues := obj_set key (getPropertyValue key (style element)) prevValues in
  let element :=
    {| style := style_assign key (js_or (obj_get key styles) (js_string ""))
                  (style element) |} in
  (element, prevValues).

Definition setStyle (element : HTMLElement) (styles : style_map)
    : HTMLElement * RevertHandle :=
  let '(element, prevValues) :=
    fold_left (patch styles) (Object_keys styles) (element, []) in
  (element, {| prevValues := prevValues |}).

End set_style.
End TypedKeys.

(** The two revisions side by side. *)
Inductive revision : Type := string_keys | typed_keys.

Section revisions.
Context `{CssEngine}.

Definition setStyle_of (r : revision)
    : HTMLElement → style_map → HTMLElement * RevertHandle :=
  match r with
  | string_keys => StringKeys.setStyle
  | typed_keys => TypedKeys.setStyle
  end.

(** The property that a write through [setProperty(property, _)]
    reaches, if any. *)
Definition reached_by_setProperty (property : string) : option string :=
  let name := css_name property in
  if is_custom_property name || is_supported name then Some name else None.

(** The property that the patch of a revision reaches for a key of the
    style map: the string-keyed revision hands the key to [setProperty],
    the typed revision assigns to the attribute of that name. *)
Definition addressed_property (r : revision) (key : string) : option string :=
  match r with
  | string_keys => reached_by_setProperty key
  | typed_keys => attribute_property key ≫= reached_by_setProperty
  end.

Definition patch_of (r : revision)
    : style_map → HTMLElement * js_object → string → HTMLElement * js_object :=
  match r with
  | string_keys => StringKeys.patch
  | typed_keys => TypedKeys.patch
  end.

(** Keys for which both revisions reach the same property. *)
Definition addressed_alike (key : string) : bool :=
  match addressed_property string_keys key, addressed_property typed_keys key with
  | Some p, Some q => String.eqb p q
  | _, _ => false
  end.

(** The declarations that the patch of a revision may write for a key, and
    those that [getPropertyValue(key)] reads. *)
Definition written_by (r : revision) (key : string) : list string :=
  match addressed_property r key with
  | Some property => declaration_names property
  | None => []
  end.

Definition read_by (key : string) : list string :=
  declaration_names (css_name key).

Definition is_longhand (name : string) : bool :=
  match shorthand_longhands name with
  | [] => true
  | _ => false
  end.

(** Keys that name one and the same longhand for [getPropertyValue] and
    [setProperty] and for assignment to the style object. *)
Definition restorable (key : string) : bool :=
  addressed_alike key && is_longhand (css_name key).

(** Keys that can be assigned to on the style object within the model,
    and keys that the patch of a revision can take: the typed revision
    assigns to the style object. *)
Definition assignable (key : string) : bool := negb (own_member key).

Definition patchable (r : revision) (key : string) : bool :=
  match r with
  | string_keys => true
  | typed_keys => assignable key
  end.

(** No key of [keys] other than [key] writes one of the declarations
    [names]. *)
Definition untouched_by_others (r : revision) (keys : list string)
    (key : string) (names : list string) : Prop :=
  Forall (λ k, k ≠ key → Forall (λ n, n ∉ written_by r k) names) keys.

(** The engine has no property whose name, or the name of one of whose
    longhands, has the form of a custom property. *)
Definition no_custom_names : Prop :=
  Forall (λ p, is_custom_property p = false
               ∧ Forall (λ l, is_custom_property l = false) (longhands p))
    supported_properties.

End revisions.

(** ** Sample hosts *)

(** The values of the four sides from the one to four values of a
    [margin], and back. *)
Fixpoint words_from (word : string) (s : string) : list string :=
  match s with
  | EmptyString => [word]
  | String c s' =>
      if Ascii.eqb c " " then word :: words_from EmptyString s'
      else words_from (word +:+ String c EmptyString) s'
  end.

Definition words (s : string) : list string :=
  filter (λ w, w ≠ EmptyString) (words_from EmptyString s).

Definition four_sides (value : string) : option (list string) :=
  match words value with
  | [a] => Some [a; a; a; a]
  | [a; b] => Some [a; b; a; b]
  | [a; b; c] => Some [a; b; c; b]
  | [a; b; c; d] => Some [a; b; c; d]
  | _ => None
  end.

Definition sides_text (values : list string) : string :=
  match values with
  | [t; r; b; l] =>
      if negb (String.eqb l r) then t +:+ " " +:+ r +:+ " " +:+ b +:+ " " +:+ l
      else if negb (String.eqb b t) then t +:+ " " +:+ r +:+ " " +:+ b
      else if negb (String.eqb r t) then t +:+ " " +:+ r
      else t
  | _ => EmptyString
  end.

Definition margin_sides : list string :=
  ["margin-top"; "margin-right"; "margin-bottom"; "margin-left"].

(** A CSS engine with a few real properties, one of them a shorthand,
    whose longhand grammar takes every value as it is written (or, for
    [rejected] values, not at all). *)
Definition engine_rejecting (rejected : string → bool) : CssEngine :=
  {| supported_properties :=
       ["color"; "background-color"; "margin"; "margin-top"; "margin-right";
        "margin-bottom"; "margin-left"; "float"; "-webkit-line-clamp"];
     longhands := λ p, if String.eqb p "margin" then margin_sides else [];
     parse_value := λ _ v, if rejected v then None else Some v;
     expand_shorthand :=
       λ p v, if String.eqb p "margin" then four_sides v else None;
     serialize_shorthand :=
       λ p vs, if String.eqb p "margin" then sides_text vs else EmptyString |}.

Definition sample_engine : CssEngine := engine_rejecting (λ _, false).

(** An element with the given inline declarations, none important. *)
Definition inline_style (l : list (string * string)) : HTMLElement :=
  {| style := {| declarations := list_to_map (prod_map id (λ v, (v, false)) <$> l);
                 expandos := ∅ |} |}.

(** The element and the style map of the example in the doc comment of
    [setStyle]: [setStyle(element, { color: 'red', backgroundColor:
    'blue' })], on an element with
    [style="color: black; background-color: green"]. *)
Definition styled_element : HTMLElement :=
  inline_style [("color", "black"); ("background-color", "green")].
Definition documented_styles : style_map :=
  [("color", js_string "red"); ("backgroundColor", js_string "blue")].

(** The same patch with the names as CSS writes them. *)
Definition hyphenated_styles : style_map :=
  [("color", js_string "red"); ("background-color", js_string "blue");
   ("margin-top", js_string "4px")].

(** The engine with a grammar that rejects one value. *)
Definition strict_engine : CssEngine := engine_rejecting (String.eqb "bogus").

(** An element with [style="color: black; background-color: green
    !important"]. *)
Definition important_element : HTMLElement :=
  {| style := {| declarations :=
                   list_to_map [("color", ("black", false));
                                ("background-color", ("green", true))];
                 expandos := ∅ |} |}.

(** Style maps for the examples. *)
Definition bogus_styles : style_map :=
  [("color", js_string "bogus"); ("margin-top", js_string "4px")].
Definition camel_styles : style_map :=
  [("backgroundColor", js_string "blue"); ("marginTop", js_string "4px")].
Definition custom_styles : style_map :=
  [("--gap", js_string "2px"); ("color", js_string "red")].
Definition second_styles : style_map :=
  [("color", js_string "blue"); ("float", js_string "left")].
Definition gap_styles : style_map := [("--gap", js_string "2px")].

(** [{ backgroundColor: '' }], [{ 'background-color': '', color: 'red' }]
    and [{ margin: '' }] *)
Definition clearing_styles : style_map := [("backgroundColor", js_string "")].
Definition hyphenated_clearing_styles : style_map :=
  [("background-color", js_string ""); ("color", js_string "red")].
Definition margin_clearing_styles : style_map := [("margin", js_string "")].

(** [{ webkitLineClamp: 3, marginTop: 0 }] *)
Definition number_styles : style_map :=
  [("webkitLineClamp", js_number "3"); ("marginTop", js_number "0")].

(** The element after somebody else changed it. *)
Definition changed_element : HTMLElement :=
  inline_style [("background-color", "yellow"); ("margin-top", "1px")].

Module SamplePage.

Record Element : Type := {
  uid : nat;
  tag : string;
  attributes : list (string * string);
  ancestors : list nat;
}.

Inductive PageNode : Type :=
| the_document
| element (e : Element).

Inductive DOMException : Type := SyntaxError (selector : string).

Record compound : Type := {
  type_selector : option string;
  attribute_selectors : list (string * string);
}.

Inductive scanner : Type :=
| AtStart
| InType (t : string)
| InAttrName (n : string)
| AfterEquals (n : string)
| InValue (n v : string)
| AfterValue (n v : string)
| AfterAttr.

Definition is_letter (c : ascii) : bool := is_ascii_lower c || is_ascii_upper c.

Definition is_name_char (c : ascii) : bool :=
  is_letter c || Ascii.eqb c "-" || Ascii.eqb c "_"
  || (let n := nat_of_ascii c in ((48 <=? n) && (n <=? 57))%nat).

Definition snoc (s : string) (c : ascii) : string := s +:+ String c EmptyString.

Definition with_type (t : string) (cur : compound) : compound :=
  {| type_selector := Some t; attribute_selectors := attribute_selectors cur |}.

Definition with_attr (n v : string) (cur : compound) : compound :=
  {| type_selector := type_selector cur;
     attribute_selectors := attribute_selectors cur ++ [(n, v)] |}.

Definition no_compound : compound :=
  {| type_selector := None; attribute_selectors := [] |}.

Fixpoint scan (st : scanner) (cur : compound) (done : list compound)
    (s : string) : option (list compound) :=
  match s with
  | EmptyString =>
      match st with
      | InType t => Some (done ++ [with_type t cur])
      | AfterAttr => Some (done ++ [cur])
      | _ => None
      end
  | String c rest =>
      match st with
      | AtStart =>
          if is_letter c then scan (InType (String c EmptyString)) cur done rest
          else if Ascii.eqb c "[" then scan (InAttrName EmptyString) cur done rest
          else None
      | InType t =>
          if is_name_char c then scan (InType (snoc t c)) cur done rest
          else if Ascii.eqb c "["
          then scan (InAttrName EmptyString) (with_type t cur) done rest
          else if Ascii.eqb c ","
          then scan AtStart no_compound (done ++ [with_type t cur]) rest
          else None
      | InAttrName n =>
          if String.eqb n EmptyString
          then (if is_letter c
                then scan (InAttrName (String c EmptyString)) cur done rest
                else None)
          else if is_name_char c then scan (InAttrName (snoc n c)) cur done rest
          else if Ascii.eqb c "=" then scan (AfterEquals n) cur done rest
          else None
      | AfterEquals n =>
          if Ascii.eqb c "034" then scan (InValue n EmptyString) cur done rest
          else None
      | InValue n v =>
          if Ascii.eqb c "034" then scan (AfterValue n v) cur done rest
          else if breaks_string c then None
          else scan (InValue n (snoc v c)) cur done rest
      | AfterValue n v =>
          if Ascii.eqb c "]" then scan AfterAttr (with_attr n v cur) done rest
          else None
      | AfterAttr =>
          if Ascii.eqb c "[" then scan (InAttrName EmptyString) cur done rest
          else if Ascii.eqb c "," then scan AtStart no_compound (done ++ [cur]) rest
          else None
      end
  end.

Definition parse_selector (s : string) : option (list compound) :=
  scan AtStart no_compound [] s.

Definition has_attribute (e : Element) (nv : string * string) : bool :=
  bool_decide (nv ∈ attributes e).

Definition matches_compound (e : Element) (c : compound) : bool :=
  match type_selector c with
  | Some t => String.eqb (ascii_lowercase t) (tag e)
  | None => true
  end && forallb (has_attribute e) (attribute_selectors c).

Definition in_scope (root : PageNode) (e : Element) : bool :=
  match root with
  | the_document => true
  | element p => bool_decide (uid p ∈ ancestors e)
  end.

Definition query (page : list Element) (root : PageNode) (selector : string)
    : completion DOMException (list PageNode) :=
  match parse_selector selector with
  | None => Throw (SyntaxError selector)
  | Some cs =>
      Normal (element <$>
                filter (λ e, in_scope root e && existsb (matches_compound e) cs) page)
  end.

(** [<script src="https://example.com/app.js"></script>
     <div id="app"><span class="x"></span></div>] *)
Definition script_el : Element :=
  {| uid := 1; tag := "script";
     attributes := [("src", "https://example.com/app.js")]; ancestors := [] |}.
Definition div_el : Element :=
  {| uid := 2; tag := "div"; attributes := [("id", "app")]; ancestors := [] |}.
Definition span_el : Element :=
  {| uid := 3; tag := "span"; attributes := [("class", "x")]; ancestors := [2] |}.
Definition second_span_el : Element :=
  {| uid := 4; tag := "span"; attributes := [("class", "x")]; ancestors := [] |}.

Definition page : list Element := [script_el; div_el; span_el; second_span_el].

(** The page as seen by a module loaded from [url]. *)
Definition host (url : string) : Host :=
  {| Node := PageNode;
     Exn := DOMException;
     document := the_document;
     querySelectorAll := query page;
     import_meta_url := url |}.

(** The page seen from the module that its script element loads. *)
Definition page_host : Host := host "https://example.com/app.js".

Definition spans_of (parent : option PageNode) (log : option LogLevel)
    : GetHtmlElementProps PageNode :=
  {| selector := "span"; parent := parent; log := log |}.

Definition paragraphs_of (parent : option PageNode) (log : option LogLevel)
    : GetHtmlElementProps PageNode :=
  {| selector := "p"; parent := parent; log := log |}.

Definition unfinished_list (log : option LogLevel)
    : GetHtmlElementProps PageNode :=
  {| selector := "span,"; parent := None; log := log |}.





End SamplePage.

(** * Properties *)

(** ** The finders *)

Section finder_properties.
Context `{Host}.
Implicit Types (props : GetHtmlElementProps Node) (c : Console).

Local Ltac run_finder Hq :=
  unfold getHtmlElement, getMultipleHtmlElements, bind, lift_host,
    querySelector, console_call, ret;
  cbn beta zeta; rewrite ?Hq; cbn.

Lemma getHtmlElement_throw props c e :
  querySelectorAll (parent_or_document (parent props)) (selector props) = Throw e →
  getHtmlElement props c = (Throw e, c).
Proof. intros Hq. by run_finder Hq. Qed.

Lemma getHtmlElement_found props c first rest :
  querySelectorAll (parent_or_document (parent props)) (selector props)
    = Normal (first :: rest) →
  getHtmlElement props c = (Normal (Some first), c).
Proof. intros Hq. by run_finder Hq. Qed.

Lemma getHtmlElement_not_found props c :
  querySelectorAll (parent_or_document (parent props)) (selector props) = Normal [] →
  getHtmlElement props c =
    (Normal None,
     match default log_debug (log props) with
     | log_false => c
     | l => c ++ [{| call_method := consoleMethod l;
                     call_message :=
                       element_not_found_message l (selector props) (parent props);
                     call_extra := parent props |}]
     end).
Proof. intros Hq. run_finder Hq. by destruct (default log_debug (log props)). Qed.

Lemma getMultipleHtmlElements_throw props c e :
  querySelectorAll (parent_or_document (parent props)) (selector props) = Throw e →
  getMultipleHtmlElements props c = (Throw e, c).
Proof. intros Hq. by run_finder Hq. Qed.

Lemma getMultipleHtmlElements_found props c first rest :
  querySelectorAll (parent_or_document (parent props)) (selector props)
    = Normal (first :: rest) →
  getMultipleHtmlElements props c = (Normal (Some (first :: rest)), c).
Proof. intros Hq. by run_finder Hq. Qed.

Lemma getMultipleHtmlElements_not_found props c :
  querySelectorAll (parent_or_document (parent props)) (selector props) = Normal [] →
  getMultipleHtmlElements props c =
    (Normal None,
     match default log_debug (log props) with
     | log_false => c
     | l => c ++ [{| call_method := consoleMethod l;
                     call_message :=
                       no_elements_found_message l (selector props) (parent props);
                     call_extra := parent props |}]
     end).
Proof. intros Hq. run_finder Hq. by destruct (default log_debug (log props)). Qed.



(** C7.  A query that comes back without a match makes both finders
    return [null]: they do not throw.  A query that throws (a malformed
    selector) makes both finders end with that same exception, with
    nothing written to the console. *)
Theorem finders_error_policy props c outcome :
  querySelectorAll (parent_or_document (parent props)) (selector props)
    = outcome →
  match outcome with
  | Throw e =>
      getHtmlElement props c = (Throw e, c)
      ∧ getMultipleHtmlElements props c = (Throw e, c)
  | Normal [] =>
      (getHtmlElement props c).1 = Normal None
      ∧ (getMultipleHtmlElements props c).1 = Normal None
  | Normal (first :: rest) =>
      (getHtmlElement props c).1 = Normal (Some first)
      ∧ (getMultipleHtmlElements props c).1 = Normal (Some (first :: rest))
  end.
Proof.
  intros Hq. destruct outcome as [[|first rest]|e].
  - by rewrite getHtmlElement_not_found, getMultipleHtmlElements_not_found.
  - by rewrite (getHtmlElement_found _ _ first rest),
      (getMultipleHtmlElements_found _ _ first rest).
  - by rewrite (getHtmlElement_throw _ _ e), (getMultipleHtmlElements_throw _ _ e).
Qed.

(** C8.  With [log: false] neither finder writes to the console,
    whatever the query gives. *)
Theorem disabled_log_is_silent props c :
  log props = Some log_false →
  (getHtmlElement props c).2 = c ∧ (getMultipleHtmlElements props c).2 = c.
Proof.
  intros Hlog.
  destruct (querySelectorAll (parent_or_document (parent props)) (selector props))
    as [[|first rest]|e] eqn:Hq.
  - rewrite getHtmlElement_not_found, getMultipleHtmlElements_not_found by done.
    by rewrite Hlog.
  - by rewrite (getHtmlElement_found _ _ first rest),
      (getMultipleHtmlElements_found _ _ first rest).
  - by rewrite (getHtmlElement_throw _ _ e), (getMultipleHtmlElements_throw _ _ e).
Qed.





End finder_properties.

(** *** The finders on the sample page *)

Module FinderExamples.
Import SamplePage.
#[local] Existing Instance page_host.



Lemma finders_error_policy_witness :
  ((getHtmlElement (paragraphs_of None None) []).1 = Normal None
   ∧ (getMultipleHtmlElements (paragraphs_of None None) []).1 = Normal None)
  ∧ (getHtmlElement (unfinished_list None) [] = (Throw (SyntaxError "span,"), [])
     ∧ getMultipleHtmlElements (unfinished_list None) []
       = (Throw (SyntaxError "span,"), [])).
Proof.
  split.
  - exact (finders_error_policy (paragraphs_of None None) [] (Normal []) eq_refl).
  - exact (finders_error_policy (unfinished_list None) []
             (Throw (SyntaxError "span,")) eq_refl).
Defined.

Lemma disabled_log_is_silent_witness :
  (getHtmlElement (paragraphs_of None (Some log_false)) []).2 = []
  ∧ (getMultipleHtmlElements (paragraphs_of None (Some log_false)) []).2 = [].
Proof.
  exact (disabled_log_is_silent (paragraphs_of None (Some log_false)) [] eq_refl).
Defined.








End FinderExamples.

(** ** The style patcher *)

Section style_properties.
Context `{CssEngine}.
Implicit Types (s : CSSStyleDeclaration) (element : HTMLElement)
  (styles : style_map) (key name : string).

(** Lookup names are stable: looking a lookup name up again gives the
    same name. *)
Lemma ascii_to_lower_idemp c : ascii_to_lower (ascii_to_lower c) = ascii_to_lower c.
Proof. by destruct c as [[] [] [] [] [] [] [] []]. Qed.

Lemma ascii_to_lower_hyphen c : ascii_to_lower c = "-"%char ↔ c = "-"%char.
Proof. by destruct c as [[] [] [] [] [] [] [] []]. Qed.

Lemma ascii_lowercase_idemp name :
  ascii_lowercase (ascii_lowercase name) = ascii_lowercase name.
Proof.
  induction name as [|c name IH]; [done|].
  cbn. by rewrite ascii_to_lower_idemp, IH.
Qed.

Lemma if_hyphen_lowercase {A} c (x y : A) :
  (if ascii_dec "-" (ascii_to_lower c) then x else y)
    = (if ascii_dec "-" c then x else y).
Proof.
  destruct (ascii_dec "-" (ascii_to_lower c)) as [Hl|Hl],
    (ascii_dec "-" c) as [Hc|Hc]; try done.
  - destruct Hc. symmetry. by apply ascii_to_lower_hyphen.
  - destruct Hl. symmetry. by apply ascii_to_lower_hyphen.
Qed.

Lemma is_custom_property_lowercase name :
  is_custom_property (ascii_lowercase name) = is_custom_property name.
Proof.
  unfold is_custom_property.
  destruct name as [|c1 [|c2 name]]; cbn [ascii_lowercase String.prefix];
    rewrite ?if_hyphen_lowercase; [done..|].
  by destruct name.
Qed.

Lemma css_name_idemp name : css_name (css_name name) = css_name name.
Proof.
  unfold css_name. destruct (is_custom_property name) eqn:Hc.
  - by rewrite Hc.
  - by rewrite is_custom_property_lowercase, Hc, ascii_lowercase_idemp.
Qed.

Lemma reached_by_setProperty_Some property name :
  reached_by_setProperty property = Some name → name = css_name property.
Proof.
  unfold reached_by_setProperty. cbn zeta. destruct (_ || _); [|done].
  by intros [= <-].
Qed.

Lemma reached_by_setProperty_name property name :
  reached_by_setProperty property = Some name → css_name name = name.
Proof. intros ->%reached_by_setProperty_Some. apply css_name_idemp. Qed.

Lemma addressed_property_name r key name :
  addressed_property r key = Some name → css_name name = name.
Proof.
  destruct r; cbn.
  - apply reached_by_setProperty_name.
  - destruct (attribute_property key); [|done]. apply reached_by_setProperty_name.
Qed.

(** *** Declarations, one and several *)


Lemma remove_declarations_cons name names s :
  remove_declarations (name :: names) s
    = remove_declarations names (remove_declaration name s).
Proof. done. Qed.

Lemma set_declarations_cons d ds important s :
  set_declarations (d :: ds) important s
    = set_declarations ds important (set_declaration d.1 d.2 important s).
Proof. done. Qed.

Lemma remove_declarations_expandos names s :
  expandos (remove_declarations names s) = expandos s.
Proof.
  revert s. induction names as [|n names IH]; intros s; [done|].
  by rewrite remove_declarations_cons, IH.
Qed.

Lemma set_declarations_expandos ds important s :
  expandos (set_declarations ds important s) = expandos s.
Proof.
  revert s. induction ds as [|d ds IH]; intros s; [done|].
  by rewrite set_declarations_cons, IH.
Qed.

Lemma remove_declarations_other names s n :
  n ∉ names →
  declarations (remove_declarations names s) !! n = declarations s !! n.
Proof.
  revert s. induction names as [|a names IH]; intros s Hn; [done|].
  apply not_elem_of_cons in Hn as [Hne Hn].
  rewrite remove_declarations_cons, IH by done. cbn.
  by rewrite lookup_delete_ne.
Qed.

Lemma remove_declarations_removed names s n :
  n ∈ names → declarations (remove_declarations names s) !! n = None.
Proof.
  revert s. induction names as [|a names IH]; intros s Hn.
  { by apply elem_of_nil in Hn. }
  rewrite remove_declarations_cons.
  destruct (decide (n ∈ names)) as [Hin|Hout]; [by apply IH|].
  apply elem_of_cons in Hn as [->|?]; [|done].
  rewrite remove_declarations_other by done. cbn. apply lookup_delete_eq.
Qed.

Lemma set_declarations_other ds important s n :
  n ∉ ds.*1 →
  declarations (set_declarations ds important s) !! n = declarations s !! n.
Proof.
  revert s. induction ds as [|d ds IH]; intros s Hn; [done|].
  rewrite fmap_cons in Hn. apply not_elem_of_cons in Hn as [Hne Hn].
  rewrite set_declarations_cons, IH by done. cbn.
  by rewrite lookup_insert_ne.
Qed.

Lemma zip_names (ls vs : list string) n : n ∉ ls → n ∉ (zip ls vs).*1.
Proof.
  intros Hn (d & -> & Hd)%list_elem_of_fmap. destruct d as [l v].
  apply Hn. by eapply elem_of_zip_l.
Qed.

(** *** [setProperty] by the property it reaches *)

Lemma setProperty_reached property v s name :
  reached_by_setProperty property = Some name →
  setProperty property v s
    = if String.eqb (to_CSSOMString v) ""
      then remove_declarations (declaration_names name) s
      else match shorthand_longhands name with
           | [] =>
               match parse_value name (to_CSSOMString v) with
               | None => s
               | Some v' => set_declaration name v' false s
               end
           | ls =>
               match expand_shorthand name (to_CSSOMString v) with
               | None => s
               | Some vs => set_declarations (zip ls vs) false s
               end
           end.
Proof.
  unfold reached_by_setProperty, setProperty. cbn zeta.
  destruct (is_custom_property _ || is_supported _); [|done].
  by intros [= <-].
Qed.

Lemma setProperty_unreached property v s :
  reached_by_setProperty property = None → setProperty property v s = s.
Proof.
  unfold reached_by_setProperty, setProperty. cbn zeta.
  by destruct (is_custom_property _ || is_supported _).
Qed.

Lemma setProperty_cong property1 property2 v1 v2 s :
  css_name property1 = css_name property2 →
  to_CSSOMString v1 = to_CSSOMString v2 →
  setProperty property1 v1 s = setProperty property2 v2 s.
Proof. unfold setProperty. cbn zeta. by intros -> ->. Qed.

Lemma setProperty_expandos property v s :
  expandos (setProperty property v s) = expandos s.
Proof.
  unfold setProperty. cbn zeta. destruct (negb _); [done|].
  destruct (String.eqb _ _); [apply remove_declarations_expandos|].
  destruct (shorthand_longhands _).
  - by destruct (parse_value _ _).
  - destruct (expand_shorthand _ _); [apply set_declarations_expandos|done].
Qed.

Lemma setProperty_declarations_other property v s name :
  name ∉ written_by string_keys property →
  declarations (setProperty property v s) !! name = declarations s !! name.
Proof.
  unfold written_by. cbn [addressed_property]. intros Hname.
  destruct (reached_by_setProperty property) as [q|] eqn:Hq.
  - rewrite (setProperty_reached _ _ _ q Hq).
    destruct (String.eqb _ _); [by apply remove_declarations_other|].
    unfold declaration_names in Hname.
    destruct (shorthand_longhands q) as [|l ls].
    + destruct (parse_value _ _); [|done]. cbn.
      apply not_elem_of_cons in Hname as [Hne _]. by rewrite lookup_insert_ne.
    + destruct (expand_shorthand _ _); [|done].
      by apply set_declarations_other, zip_names.
  - by rewrite setProperty_unreached.
Qed.

Lemma setProperty_clears property v s name n :
  reached_by_setProperty property = Some name →
  to_CSSOMString v = "" →
  n ∈ declaration_names name →
  declarations (setProperty property v s) !! n = None.
Proof.
  intros Hq Hv Hn. rewrite (setProperty_reached _ _ _ name Hq), Hv. cbn.
  by apply remove_declarations_removed.
Qed.

Lemma setProperty_longhand property v s name :
  reached_by_setProperty property = Some name →
  is_longhand name = true →
  declarations (setProperty property v s) !! name
    = if String.eqb (to_CSSOMString v) ""
      then None
      else match parse_value name (to_CSSOMString v) with
           | Some v' => Some (v', false)
           | None => declarations s !! name
           end.
Proof.
  intros Hq Hlong. rewrite (setProperty_reached _ _ _ name Hq).
  unfold is_longhand in Hlong. unfold declaration_names.
  destruct (shorthand_longhands name); [|done].
  destruct (String.eqb _ _); cbn; [apply lookup_delete_eq|].
  destruct (parse_value _ _); [apply lookup_insert_eq|done].
Qed.

(** *** Assignment to the style object *)

Lemma style_assign_other key v s name :
  name ∉ written_by typed_keys key →
  declarations (style_assign key v s) !! name = declarations s !! name.
Proof.
  unfold written_by, style_assign. cbn [addressed_property].
  destruct (attribute_property key) as [a|]; [|done]. cbn.
  apply setProperty_declarations_other.
Qed.

Lemma style_assign_expandos_other k v s key :
  k ≠ key → expandos (style_assign k v s) !! key = expandos s !! key.
Proof.
  intros Hne. unfold style_assign. destruct (attribute_property k).
  - by rewrite setProperty_expandos.
  - cbn. by rewrite lookup_insert_ne.
Qed.

Lemma Object_assign_cons s k v source :
  Object_assign s ((k, v) :: source)
    = Object_assign (style_assign k (js_string v) s) source.
Proof. done. Qed.

Lemma Object_assign_frame source s name :
  Forall (λ k, name ∉ written_by typed_keys k) (Object_keys source) →
  declarations (Object_assign s source) !! name = declarations s !! name.
Proof.
  revert s. induction source as [|[k v] source IH]; intros s Hkeys; [done|].
  unfold Object_keys in Hkeys. rewrite fmap_cons in Hkeys.
  apply Forall_cons in Hkeys as [Hk Hkeys].
  rewrite Object_assign_cons, IH by done. by apply style_assign_other.
Qed.

Lemma Object_assign_expandos_other source s key :
  key ∉ Object_keys source →
  expandos (Object_assign s source) !! key = expandos s !! key.
Proof.
  revert s. unfold Object_keys.
  induction source as [|[k w] source IH]; intros s Hout; [done|].
  rewrite fmap_cons in Hout. apply not_elem_of_cons in Hout as [Hne Hout].
  rewrite Object_assign_cons, IH by done. by apply style_assign_expandos_other.
Qed.

(** *** Operations that overwrite *)

Lemma overwriting_id : overwriting (λ s, s).
Proof. intros s s'. split; intros; by right. Qed.

Lemma overwriting_compose f g :
  overwriting f → overwriting g → overwriting (λ s, g (f s)).
Proof.
  intros Hf Hg s s'. destruct (Hg (f s) (f s')) as [Hgd Hge].
  destruct (Hf s s') as [Hfd Hfe]. split.
  - intros n. destruct (Hgd n) as [?|[-> ->]]; [by left|apply Hfd].
  - intros k. destruct (Hge k) as [?|[-> ->]]; [by left|apply Hfe].
Qed.

Lemma overwriting_fold {A} (step : A → CSSStyleDeclaration → CSSStyleDeclaration)
    (l : list A) :
  (∀ a, overwriting (step a)) →
  overwriting (λ s, fold_left (λ s a, step a s) l s).
Proof.
  intros Hstep. induction l as [|a l IH]; [apply overwriting_id|].
  cbn [fold_left].
  exact (overwriting_compose (step a) (λ s, fold_left (λ s a, step a s) l s)
           (Hstep a) IH).
Qed.


Lemma overwriting_at f s s' n :
  overwriting f →
  declarations s !! n = declarations s' !! n →
  declarations (f s) !! n = declarations (f s') !! n.
Proof.
  intros Hf Heq. destruct (Hf s s') as [Hd _].
  by destruct (Hd n) as [?|[-> ->]].
Qed.

Lemma overwriting_remove_declaration name : overwriting (remove_declaration name).
Proof.
  intros s s'. split; [|by right]. intros n. cbn.
  destruct (decide (name = n)) as [->|].
  - left. by rewrite !lookup_delete_eq.
  - right. by rewrite !lookup_delete_ne.
Qed.

Lemma overwriting_set_declaration name v important :
  overwriting (set_declaration name v important).
Proof.
  intros s s'. split; [|by right]. intros n. cbn.
  destruct (decide (name = n)) as [->|].
  - left. by rewrite !lookup_insert_eq.
  - right. by rewrite !lookup_insert_ne.
Qed.

Lemma overwriting_setProperty property v : overwriting (setProperty property v).
Proof.
  unfold setProperty. cbn zeta.
  destruct (negb _); [apply overwriting_id|].
  destruct (String.eqb _ _).
  { apply (overwriting_fold remove_declaration).
    apply overwriting_remove_declaration. }
  destruct (shorthand_longhands _) as [|l ls].
  - destruct (parse_value _ _);
      [apply overwriting_set_declaration|apply overwriting_id].
  - destruct (expand_shorthand _ _) as [vs|]; [|apply overwriting_id].
    apply (overwriting_fold (λ d, set_declaration d.1 d.2 false)).
    intros d. apply overwriting_set_declaration.
Qed.

Lemma overwriting_style_assign key v : overwriting (style_assign key v).
Proof.
  unfold style_assign. destruct (attribute_property key) as [a|].
  { apply overwriting_setProperty. }
  intros s s'. split; [by right|]. intros k. cbn.
  destruct (decide (key = k)) as [->|].
  - left. by rewrite !lookup_insert_eq.
  - right. by rewrite !lookup_insert_ne.
Qed.


(** *** Revert, invoked again *)


(** *** The loop of the patch *)

Lemma setStyle_of_fold r element styles :
  (setStyle_of r element styles).1
    = (fold_left (patch_of r styles) (Object_keys styles) (element, [])).1.
Proof.
  destruct r; cbn; unfold StringKeys.setStyle, TypedKeys.setStyle;
    by destruct (fold_left _ _ _).
Qed.

Lemma setStyle_of_handle r element styles :
  prevValues (setStyle_of r element styles).2
    = (fold_left (patch_of r styles) (Object_keys styles) (element, [])).2.
Proof.
  destruct r; cbn; unfold StringKeys.setStyle, TypedKeys.setStyle;
    by destruct (fold_left _ _ _).
Qed.

Lemma patch_of_prev r styles element prev key :
  (patch_of r styles (element, prev) key).2
    = obj_set key (getPropertyValue key (style element)) prev.
Proof. by destruct r. Qed.

Lemma patch_of_other r styles acc key name :
  name ∉ written_by r key →
  declarations (style (patch_of r styles acc key).1) !! name
    = declarations (style acc.1) !! name.
Proof.
  destruct acc as [element prev], r; cbn [patch_of]; intros Hname.
  - by apply setProperty_declarations_other.
  - by apply style_assign_other.
Qed.

Lemma fold_patch_of_other r styles (keys : list string) acc name :
  (∀ k, k ∈ keys → name ∉ written_by r k) →
  declarations (style (fold_left (patch_of r styles) keys acc).1) !! name
    = declarations (style acc.1) !! name.
Proof.
  revert acc. induction keys as [|k keys IH]; intros acc Hkeys; [done|].
  cbn. rewrite IH by (intros; apply Hkeys; by right).
  apply patch_of_other, Hkeys. by left.
Qed.

Lemma obj_get_elem key v styles :
  NoDup (Object_keys styles) → (key, v) ∈ styles → obj_get key styles = v.
Proof.
  unfold Object_keys. induction styles as [|[k w] styles IH]; cbn.
  - by intros _ ?%elem_of_nil.
  - intros [Hk Hnd]%NoDup_cons [[= -> ->]|Hin]%elem_of_cons.
    + by rewrite String.eqb_refl.
    + destruct (String.eqb k key) eqn:Heq; [|by apply IH].
      apply String.eqb_eq in Heq as ->. destruct Hk.
      apply list_elem_of_fmap. by exists (key, v).
Qed.

Lemma obj_set_fresh key v (o : js_object) :
  key ∉ Object_keys o → obj_set key v o = o ++ [(key, v)].
Proof.
  unfold Object_keys. induction o as [|[k w] o IH]; [done|].
  cbn. intros [Hne Hnot]%not_elem_of_cons.
  destruct (String.eqb k key) eqn:Heq.
  - by apply String.eqb_eq in Heq.
  - by rewrite IH.
Qed.

(** The write of a step of the loop, for a key that reaches a property
    in the revision's way. *)
Lemma patch_of_write r styles element prev key property :
  addressed_property r key = Some property →
  ∃ name v,
    reached_by_setProperty name = Some property
    ∧ to_CSSOMString v
      = (if truthy (obj_get key styles) then to_CSSOMString (obj_get key styles)
         else "")
    ∧ style (patch_of r styles (element, prev) key).1
      = setProperty name v (style element).
Proof.
  destruct r; cbn [patch_of addressed_property]; intros Hp.
  - exists key, (js_or (obj_get key styles) js_null). split_and!; [done| |done].
    unfold js_or. by destruct (truthy _).
  - destruct (attribute_property key) as [a|] eqn:Ha; [|done]. cbn in Hp.
    exists a, (js_or (obj_get key styles) (js_string "")). split_and!; [done| |].
    + unfold js_or. by destruct (truthy _).
    + cbn. unfold style_assign. by rewrite Ha.
Qed.

(** The state of the element after the patch, at a declaration that only
    the given key may write. *)
Lemma setStyle_of_at_key r element styles key name :
  NoDup (Object_keys styles) →
  key ∈ Object_keys styles →
  untouched_by_others r (Object_keys styles) key [name] →
  ∃ prev,
    declarations (style (setStyle_of r element styles).1) !! name
      = declarations (style (patch_of r styles (element, prev) key).1) !! name.
Proof.
  intros Hnd Hk Hothers. unfold untouched_by_others in Hothers.
  rewrite Forall_forall in Hothers. rewrite setStyle_of_fold.
  apply list_elem_of_split in Hk as (before & after & Hsplit).
  rewrite Hsplit in Hnd |- *. rewrite fold_left_app. cbn [fold_left].
  assert (∀ k, k ∈ before ++ after → name ∉ written_by r k) as Hrest.
  { intros k Hk.
    assert (k ≠ key) as Hne.
    { intros ->. apply NoDup_app in Hnd as (_ & Hdisj & [Hnot _]%NoDup_cons).
      apply elem_of_app in Hk as [Hk|Hk]; [|done].
      apply (Hdisj key Hk). by left. }
    assert (k ∈ Object_keys styles) as Hin.
    { rewrite Hsplit. apply elem_of_app in Hk as [?|?]; apply elem_of_app;
        [by left|right; by right]. }
    specialize (Hothers k Hin Hne). by apply Forall_cons in Hothers as [? _]. }
  rewrite fold_patch_of_other by (intros; apply Hrest, elem_of_app; by right).
  pose proof (fold_patch_of_other r styles before (element, []) name
                (λ k Hk, Hrest k (proj2 (elem_of_app _ _ _) (or_introl Hk))))
    as Hbefore.
  destruct (fold_left (patch_of r styles) before (element, [])) as [element0 prev0].
  exists prev0. cbn [fst] in Hbefore.
  destruct r; cbn [patch_of StringKeys.patch TypedKeys.patch fst style].
  - by apply overwriting_at; [apply overwriting_setProperty|].
  - by apply overwriting_at; [apply overwriting_style_assign|].
Qed.

(** *** When the revisions agree *)

(** [x || null] and [x || ""] reach the style object as the same
    string. *)
Lemma or_null_or_empty (x : jsval) :
  to_CSSOMString (js_or x js_null) = to_CSSOMString (js_or x (js_string "")).
Proof. unfold js_or. by destruct (truthy x). Qed.

Lemma patch_alike styles acc key :
  addressed_alike key = true →
  StringKeys.patch styles acc key = TypedKeys.patch styles acc key.
Proof.
  unfold addressed_alike, addressed_property. intros Halike.
  destruct (reached_by_setProperty key) as [p|] eqn:Hp; [|done].
  destruct (attribute_property key) as [a|] eqn:Ha; [|done].
  cbn in Halike.
  destruct (reached_by_setProperty a) as [q|] eqn:Hq; [|done].
  apply String.eqb_eq in Halike as <-.
  destruct acc as [element prev]. unfold StringKeys.patch, TypedKeys.patch.
  do 2 f_equal. unfold style_assign. rewrite Ha.
  apply setProperty_cong; [|apply or_null_or_empty].
  apply reached_by_setProperty_Some in Hp, Hq. congruence.
Qed.

(** X20.  On a style map whose keys each reach the same property through
    [setProperty] and through attribute assignment, the two revisions
    leave the element in the same state and return handles holding the
    same captured values, so that their reverts do the same. *)
Theorem revisions_agree_on_alike_keys element styles :
  forallb addressed_alike (Object_keys styles) = true →
  StringKeys.setStyle element styles = TypedKeys.setStyle element styles
  ∧ ∀ element',
      revert (StringKeys.setStyle element styles).2 element'
        = revert (TypedKeys.setStyle element styles).2 element'.
Proof.
  intros Hkeys.
  assert (StringKeys.setStyle element styles = TypedKeys.setStyle element styles)
    as Heq; [|by rewrite Heq].
  unfold StringKeys.setStyle, TypedKeys.setStyle.
  generalize (element, @nil (string * string)).
  induction (Object_keys styles) as [|key keys IH]; intros acc; [done|].
  cbn in Hkeys. apply andb_prop in Hkeys as [Hkey Hkeys].
  cbn [fold_left]. rewrite (patch_alike _ _ _ Hkey).
  specialize (IH Hkeys (TypedKeys.patch styles acc key)).
  destruct (fold_left (StringKeys.patch styles) _ _),
    (fold_left (TypedKeys.patch styles) _ _).
  done.
Qed.

(** *** Patch, then revert *)

Lemma lookup_all_ext (ds ds' : gmap string (string * bool)) (names : list string) :
  (∀ n, n ∈ names → ds !! n = ds' !! n) →
  lookup_all ds names = lookup_all ds' names.
Proof.
  induction names as [|n names IH]; intros Hnames; [done|].
  cbn. rewrite (Hnames n) by by left.
  by rewrite IH by (intros; apply Hnames; by right).
Qed.

(** [getPropertyValue(key)] only looks at the declarations that it
    reads. *)
Lemma getPropertyValue_ext key s s' :
  (∀ n, n ∈ read_by key → declarations s !! n = declarations s' !! n) →
  getPropertyValue key s = getPropertyValue key s'.
Proof.
  unfold read_by, declaration_names, getPropertyValue. cbn zeta. intros Hread.
  destruct (shorthand_longhands (css_name key)) as [|l ls].
  - rewrite (Hread (css_name key)); [done|by left].
  - by rewrite (lookup_all_ext _ (declarations s')).
Qed.

(** When no key writes what another key reads, each captured value is the
    value the element had before the patch. *)
Lemma fold_patch_of_captured r styles (keys : list string) element
    (prev : js_object) :
  NoDup keys →
  Forall (λ k, untouched_by_others r keys k (read_by k)) keys →
  (∀ k, k ∈ keys → k ∉ Object_keys prev) →
  (fold_left (patch_of r styles) keys (element, prev)).2
    = prev ++ ((λ k, (k, getPropertyValue k (style element))) <$> keys).
Proof.
  unfold untouched_by_others.
  revert element prev. induction keys as [|key keys IH]; intros element prev.
  - intros _ _ _. by rewrite app_nil_r.
  - intros [Hkey Hnd]%NoDup_cons Hfree Hfresh. cbn [fold_left].
    pose proof (patch_of_prev r styles element prev key) as Hprev.
    pose proof (λ name, patch_of_other r styles (element, prev) key name) as Hother.
    destruct (patch_of r styles (element, prev) key) as [element1 prev1].
    cbn in Hprev, Hother. subst prev1.
    rewrite obj_set_fresh by (apply Hfresh; by left).
    rewrite IH; [|done| |].
    + rewrite <-app_assoc. f_equal. cbn. f_equal.
      apply list_fmap_ext. intros _ k Hk%list_elem_of_lookup_2. f_equal.
      apply getPropertyValue_ext. intros n Hn. apply Hother.
      rewrite Forall_forall in Hfree.
      specialize (Hfree k (ltac:(by right))). rewrite Forall_forall in Hfree.
      specialize (Hfree key (ltac:(by left)) (ltac:(by intros ->))).
      rewrite Forall_forall in Hfree. by apply Hfree.
    + apply Forall_cons in Hfree as [_ Hfree].
      eapply Forall_impl; [exact Hfree|]. cbn.
      by intros k [_ Hk]%Forall_cons.
    + intros k Hk. unfold Object_keys. rewrite fmap_app.
      intros [Hin|Hin%list_elem_of_singleton]%elem_of_app.
      * by apply (Hfresh k); [right|].
      * cbn in Hin. by subst k.
Qed.

Lemma addressed_alike_property key (r : revision) :
  addressed_alike key = true → addressed_property r key = Some (css_name key).
Proof.
  unfold addressed_alike.
  destruct (addressed_property string_keys key) as [p|] eqn:Hp; [|done].
  destruct (addressed_property typed_keys key) as [q|] eqn:Hq; [|done].
  intros <-%String.eqb_eq. apply reached_by_setProperty_Some in Hp as Hname.
  destruct r; congruence.
Qed.

(** A restorable key reads and writes the one declaration of its
    property. *)
Lemma restorable_alike key : restorable key = true → addressed_alike key = true.
Proof. unfold restorable. by intros [? _]%andb_prop. Qed.

Lemma restorable_longhand key :
  restorable key = true → is_longhand (css_name key) = true.
Proof. unfold restorable. by intros [_ ?]%andb_prop. Qed.

Lemma restorable_read key : restorable key = true → read_by key = [css_name key].
Proof.
  intros Hlong%restorable_longhand. unfold read_by, declaration_names.
  unfold is_longhand in Hlong. by destruct (shorthand_longhands _).
Qed.

Lemma restorable_written r key :
  restorable key = true → written_by r key = [css_name key].
Proof.
  intros Hkey. unfold written_by.
  rewrite addressed_alike_property by by apply restorable_alike.
  by apply restorable_read.
Qed.

Lemma forallb_elem (P : string → bool) (keys : list string) :
  forallb P keys = true → ∀ k, k ∈ keys → P k = true.
Proof.
  intros HP k Hk. rewrite forallb_forall in HP.
  by apply HP, list_elem_of_In.
Qed.

Lemma restorable_outside r (keys : list string) name :
  (∀ k, k ∈ keys → restorable k = true) →
  name ∉ css_name <$> keys →
  ∀ k, k ∈ keys → name ∉ written_by r k.
Proof.
  intros Hkeys Hout k Hk. rewrite restorable_written by auto.
  intros ->%list_elem_of_singleton. destruct Hout.
  apply list_elem_of_fmap. by exists k.
Qed.

Lemma restorable_untouched r (keys : list string) :
  NoDup (css_name <$> keys) →
  (∀ k, k ∈ keys → restorable k = true) →
  Forall (λ k, untouched_by_others r keys k (read_by k)) keys.
Proof.
  intros Hnd Hkeys. apply Forall_forall. intros k Hk.
  apply Forall_forall. intros k' Hk' Hne.
  rewrite restorable_read, restorable_written by auto.
  apply Forall_cons. split; [|done].
  intros Heq%list_elem_of_singleton. apply Hne.
  apply list_elem_of_lookup in Hk as [i Hi], Hk' as [j Hj].
  assert (i = j) as ->; [|congruence].
  apply (NoDup_lookup _ i j (css_name k) Hnd); rewrite list_lookup_fmap.
  - by rewrite Hi.
  - by rewrite Hj, Heq.
Qed.

Lemma NoDup_css_name_keys (keys : list string) :
  NoDup (css_name <$> keys) → NoDup keys.
Proof. apply NoDup_fmap_1. Qed.

Lemma prevValues_restorable r element styles :
  NoDup (css_name <$> Object_keys styles) →
  forallb restorable (Object_keys styles) = true →
  prevValues (setStyle_of r element styles).2
    = (λ k, (k, getPropertyValue k (style element))) <$> Object_keys styles.
Proof.
  intros Hnd Hkeys.
  rewrite setStyle_of_handle, fold_patch_of_captured; [done| | |].
  - by apply NoDup_css_name_keys.
  - apply restorable_untouched; [done|]. by apply forallb_elem.
  - intros k _ Hin. by apply elem_of_nil in Hin.
Qed.

(** What an assignment of a captured value leaves under the name of the
    property. *)
Lemma style_assign_restorable key v s :
  restorable key = true →
  declarations (style_assign key (js_string v) s) !! css_name key
    = if String.eqb v ""
      then None
      else match parse_value (css_name key) v with
           | Some v' => Some (v', false)
           | None => declarations s !! css_name key
           end.
Proof.
  intros Hkey.
  pose proof (addressed_alike_property key typed_keys (restorable_alike _ Hkey))
    as Hp.
  cbn in Hp. unfold style_assign.
  destruct (attribute_property key) as [a|]; [|done]. cbn in Hp.
  by rewrite (setProperty_longhand _ _ _ _ Hp) by by apply restorable_longhand.
Qed.

Lemma Object_assign_restorable (values : string → string) (keys : list string) s key :
  NoDup (css_name <$> keys) →
  (∀ k, k ∈ keys → restorable k = true) →
  key ∈ keys →
  declarations (Object_assign s ((λ k, (k, values k)) <$> keys)) !! css_name key
    = if String.eqb (values key) ""
      then None
      else match parse_value (css_name key) (values key) with
           | Some v' => Some (v', false)
           | None => declarations s !! css_name key
           end.
Proof.
  revert s. induction keys as [|k keys IH]; intros s Hnd Hkeys Hin.
  { by apply elem_of_nil in Hin. }
  rewrite fmap_cons in Hnd. apply NoDup_cons in Hnd as [Hk Hnd].
  rewrite fmap_cons, Object_assign_cons.
  destruct (decide (key ∈ keys)) as [Hin'|Hout].
  - rewrite IH; [|done|intros; apply Hkeys; by right|done].
    rewrite style_assign_other; [done|].
    rewrite restorable_written by (apply Hkeys; by left).
    intros Heq%list_elem_of_singleton. destruct Hk. rewrite <-Heq.
    apply list_elem_of_fmap. by exists key.
  - apply elem_of_cons in Hin as [->|?]; [|done].
    rewrite Object_assign_frame.
    + apply style_assign_restorable, Hkeys. by left.
    + apply Forall_forall. unfold Object_keys.
      rewrite <-list_fmap_compose. intros k' (k'' & -> & Hk')%list_elem_of_fmap.
      cbn. rewrite restorable_written by (apply Hkeys; by right).
      intros Heq%list_elem_of_singleton. destruct Hk. rewrite Heq.
      apply list_elem_of_fmap. by exists k''.
Qed.

Lemma revert_restorable_lookup r element styles key element' :
  NoDup (css_name <$> Object_keys styles) →
  forallb restorable (Object_keys styles) = true →
  key ∈ Object_keys styles →
  (∀ v important,
     declarations (style element) !! css_name key = Some (v, important) →
     v ≠ "" ∧ parse_value (css_name key) v = Some v) →
  declarations (style (revert (setStyle_of r element styles).2 element'))
    !! css_name key
    = (λ d, (d.1, false)) <$> declarations (style element) !! css_name key.
Proof.
  intros Hnd Hkeys Hkey Hser. unfold revert. cbn [style].
  rewrite prevValues_restorable by done.
  rewrite Object_assign_restorable; [|done|by apply forallb_elem|done].
  pose proof (restorable_longhand key (forallb_elem _ _ Hkeys key Hkey)) as Hlong.
  unfold getPropertyValue, is_longhand in *. cbn zeta.
  destruct (shorthand_longhands (css_name key)); [|done].
  destruct (declarations (style element) !! css_name key) as [[v i]|] eqn:Hv; [|done].
  destruct (Hser _ _ eq_refl) as [Hne Hparse].
  apply String.eqb_neq in Hne. by rewrite Hne, Hparse.
Qed.

Lemma revert_restorable_frame r element styles element' name :
  NoDup (css_name <$> Object_keys styles) →
  forallb restorable (Object_keys styles) = true →
  name ∉ css_name <$> Object_keys styles →
  declarations (style (revert (setStyle_of r element styles).2 element')) !! name
    = declarations (style element') !! name.
Proof.
  intros Hnd Hkeys Hout. unfold revert. cbn [style].
  rewrite prevValues_restorable, Object_assign_frame; [done| |done..].
  apply Forall_forall. unfold Object_keys. rewrite <-list_fmap_compose.
  intros k' (k & -> & Hk)%list_elem_of_fmap. cbn.
  by apply (restorable_outside typed_keys (styles.*1));
    [apply forallb_elem| |].
Qed.

Lemma patch_restorable_frame r element styles name :
  forallb restorable (Object_keys styles) = true →
  name ∉ css_name <$> Object_keys styles →
  declarations (style (setStyle_of r element styles).1) !! name
    = declarations (style element) !! name.
Proof.
  intros Hkeys Hout. rewrite setStyle_of_fold, fold_patch_of_other; [done|].
  by apply restorable_outside; [apply forallb_elem|].
Qed.

(** The round trip that does hold.  When every key of the style map
    names one and the same longhand (or custom property) for
    [getPropertyValue]/[setProperty] and for attribute assignment, no two
    keys name the same property, and the element's declarations hold
    serialised values, patching and then reverting gives every property of
    the element its value from before the patch; a property that was
    absent is absent again. *)
Lemma revert_restores_alike_keys (r : revision) element styles name :
  NoDup (css_name <$> Object_keys styles) →
  forallb restorable (Object_keys styles) = true →
  serialised (style element) →
  let run := setStyle_of r element styles in
  fst <$> declarations (style (revert run.2 run.1)) !! name
    = fst <$> declarations (style element) !! name.
Proof.
  intros Hnd Hkeys Hser. cbn zeta.
  destruct (decide (name ∈ css_name <$> Object_keys styles)) as [Hin|Hout].
  - apply list_elem_of_fmap in Hin as (key & -> & Hkey).
    rewrite revert_restorable_lookup; [|done..|intros v i; apply Hser].
    by destruct (declarations (style element) !! css_name key) as [[v i]|].
  - by rewrite revert_restorable_frame, patch_restorable_frame.
Qed.

End style_properties.

(** *** The patcher on the sample engine *)

Module PatcherExamples.
#[local] Existing Instance sample_engine.

(** How the two kinds of access name the background colour. *)
Lemma names_of_background_color :
  css_name "backgroundColor" = "backgroundcolor"
  ∧ reached_by_setProperty "backgroundColor" = None
  ∧ reached_by_setProperty "background-color" = Some "background-color"
  ∧ attribute_property "backgroundColor" = Some "background-color"
  ∧ attribute_property "background-color" = Some "background-color"
  ∧ attribute_property "--gap" = None
  ∧ reached_by_setProperty "--gap" = Some "--gap"
  ∧ addressed_alike "background-color" = true
  ∧ addressed_alike "color" = true
  ∧ addressed_alike "backgroundColor" = false
  ∧ addressed_alike "--gap" = false.
Proof. by vm_compute. Qed.

(** C1 (patch, then revert, restores every property of the style map),
    evaluated on the documented example: the code does not restore the
    background colour.  The typed revision sets both properties but
    captures the empty string for [backgroundColor], since
    [getPropertyValue] knows the property as [background-color] only; its
    revert then removes the background colour that was there before the
    patch.  The string-keyed revision captures the same and removes it
    too (without having set it). *)
Theorem revert_drops_previous_background_color :
  (let run := TypedKeys.setStyle styled_element documented_styles in
   getPropertyValue "background-color" (style styled_element) = "green"
   ∧ getPropertyValue "color" (style run.1) = "red"
   ∧ getPropertyValue "background-color" (style run.1) = "blue"
   ∧ prevValues run.2 = [("color", "black"); ("backgroundColor", "")]
   ∧ getPropertyValue "color" (style (revert run.2 run.1)) = "black"
   ∧ getPropertyValue "background-color" (style (revert run.2 run.1)) = ""
   ∧ declarations (style (revert run.2 run.1)) !! "background-color" = None)
  ∧ (let run := StringKeys.setStyle styled_element documented_styles in
     getPropertyValue "background-color" (style run.1) = "green"
     ∧ prevValues run.2 = [("color", "black"); ("backgroundColor", "")]
     ∧ getPropertyValue "color" (style (revert run.2 run.1)) = "black"
     ∧ getPropertyValue "background-color" (style (revert run.2 run.1)) = "").
Proof. by vm_compute. Qed.

(** The string-keyed revision sets a custom property through
    [setProperty], but its revert assigns to [style["--gap"]], which is
    not an attribute of the style object: the patched value stays. *)
Lemma revert_keeps_patched_custom_property :
  let element := inline_style [("--gap", "1px")] in
  let run := StringKeys.setStyle element gap_styles in
  getPropertyValue "--gap" (style element) = "1px"
  ∧ getPropertyValue "--gap" (style run.1) = "2px"
  ∧ prevValues run.2 = [("--gap", "1px")]
  ∧ getPropertyValue "--gap" (style (revert run.2 run.1)) = "2px"
  ∧ expandos (style (revert run.2 run.1)) !! "--gap" = Some (js_string "1px").
Proof. by vm_compute. Qed.

(** C6 (the two revisions behave alike on every style map that both
    accept), evaluated on the camel-cased key of the documented example,
    [setStyle(element, { backgroundColor: 'blue' })]: the string-keyed
    revision does not do what its doc comment shows and what the typed
    revision does.  The typed revision sets the background colour; the
    string-keyed revision hands the key to [setProperty], which knows the
    property as [background-color] only, and leaves the element as it
    was. *)
Theorem revisions_differ_on_camel_case_key :
  let element := inline_style [] in
  let styles : style_map := [("backgroundColor", js_string "blue")] in
  getPropertyValue "background-color" (style (StringKeys.setStyle element styles).1)
    = ""
  ∧ (StringKeys.setStyle element styles).1 = element
  ∧ getPropertyValue "background-color" (style (TypedKeys.setStyle element styles).1)
    = "blue"
  ∧ StringKeys.setStyle element styles ≠ TypedKeys.setStyle element styles.
Proof.
  cbv zeta. split_and!; [by vm_compute..|].
  intros Heq.
  apply (f_equal (λ run, getPropertyValue "background-color" (style run.1))) in Heq.
  vm_compute in Heq. discriminate Heq.
Qed.

(** C4 (a key whose value is the clearing value removes the property),
    evaluated on the camel-cased key of the documented example,
    [setStyle(element, { backgroundColor: '' })]: the string-keyed
    revision removes nothing.  It hands the key to [setProperty], which
    knows the property as [background-color] only and ignores the call,
    so the background colour of the element stays.  The typed revision
    removes it. *)
Theorem empty_value_keeps_camel_case_property :
  let run := StringKeys.setStyle styled_element clearing_styles in
  obj_get "backgroundColor" clearing_styles = js_string ""
  ∧ declarations (style styled_element) !! "background-color"
    = Some ("green", false)
  ∧ run.1 = styled_element
  ∧ declarations (style run.1) !! "background-color" = Some ("green", false)
  ∧ getPropertyValue "background-color" (style run.1) = "green"
  ∧ declarations (style (TypedKeys.setStyle styled_element clearing_styles).1)
      !! "background-color" = None.
Proof. by vm_compute. Qed.

Lemma revisions_agree_on_alike_keys_witness :
  StringKeys.setStyle styled_element hyphenated_clearing_styles
    = TypedKeys.setStyle styled_element hyphenated_clearing_styles
  ∧ ∀ element',
      revert (StringKeys.setStyle styled_element hyphenated_clearing_styles).2
        element'
      = revert (TypedKeys.setStyle styled_element hyphenated_clearing_styles).2
          element'.
Proof.
  exact (revisions_agree_on_alike_keys styled_element hyphenated_clearing_styles
           eq_refl).
Defined.

Lemma styled_element_serialised : serialised (style styled_element).
Proof.
  intros name v important Hlook. split; [|done].
  apply elem_of_list_to_map_2, list_elem_of_In in Hlook. cbn in Hlook.
  by destruct Hlook as [[= <- <- <-]|[[= <- <- <-]|[]]].
Qed.

(** With the hyphenated names of longhands, both revisions restore the
    element. *)
Lemma revert_restores_hyphenated_styles (r : revision) :
  let run := setStyle_of r styled_element hyphenated_styles in
  getPropertyValue "background-color" (style run.1) = "blue"
  ∧ getPropertyValue "margin-top" (style run.1) = "4px"
  ∧ ∀ name,
      fst <$> declarations (style (revert run.2 run.1)) !! name
        = fst <$> declarations (style styled_element) !! name.
Proof.
  cbn zeta. split_and!; [by destruct r; vm_compute..|].
  intros name. apply revert_restores_alike_keys.
  - apply (bool_decide_unpack _). reflexivity.
  - reflexivity.
  - apply styled_element_serialised.
Qed.

(** With a shorthand among the keys the round trip fails also for
    hyphenated names: on an element with [margin-top: 1px] only, the
    value captured for [margin] is the empty string, and revert removes
    all four sides. *)
Lemma revert_of_shorthand_drops_longhand (r : revision) :
  let element := inline_style [("margin-top", "1px")] in
  let styles : style_map := [("margin", js_string "5px 2px")] in
  let run := setStyle_of r element styles in
  getPropertyValue "margin" (style run.1) = "5px 2px"
  ∧ getPropertyValue "margin-top" (style run.1) = "5px"
  ∧ prevValues run.2 = [("margin", "")]
  ∧ declarations (style (revert run.2 run.1)) !! "margin-top" = None.
Proof. by destruct r; vm_compute. Qed.

End PatcherExamples.

(** * Further properties *)

(** ** The finders *)

Section finder_further_properties.
Context `{Host}.
#[local] Set Warnings "-clear-no-such-hyp".
Implicit Types (props : GetHtmlElementProps Node) (c : Console).

(** The finders by the outcome of the query. *)
Lemma getHtmlElement_by_outcome props c :
  getHtmlElement props c
    = match querySelectorAll (parent_or_document (parent props)) (selector props) with
      | Throw e => (Throw e, c)
      | Normal (first :: _) => (Normal (Some first), c)
      | Normal [] =>
          (Normal None,
           match default log_debug (log props) with
           | log_false => c
           | l => c ++ [{| call_method := consoleMethod l;
                           call_message :=
                             element_not_found_message l (selector props) (parent props);
                           call_extra := parent props |}]
           end)
      end.
Proof.
  destruct (querySelectorAll _ _) as [[|first rest]|e] eqn:Hq.
  - by apply getHtmlElement_not_found.
  - by apply (getHtmlElement_found _ _ first rest).
  - by apply getHtmlElement_throw.
Qed.

Lemma getMultipleHtmlElements_by_outcome props c :
  getMultipleHtmlElements props c
    = match querySelectorAll (parent_or_document (parent props)) (selector props) with
      | Throw e => (Throw e, c)
      | Normal (first :: rest) => (Normal (Some (first :: rest)), c)
      | Normal [] =>
          (Normal None,
           match default log_debug (log props) with
           | log_false => c
           | l => c ++ [{| call_method := consoleMethod l;
                           call_message :=
                             no_elements_found_message l (selector props) (parent props);
                           call_extra := parent props |}]
           end)
      end.
Proof.
  destruct (querySelectorAll _ _) as [[|first rest]|e] eqn:Hq.
  - by apply getMultipleHtmlElements_not_found.
  - by apply (getMultipleHtmlElements_found _ _ first rest).
  - by apply getMultipleHtmlElements_throw.
Qed.

(** X1.  The Multi-Element Finder reports an empty result like the Element
    Finder reports a missing element: no call at level [false], and
    otherwise exactly one call, to [console.debug] at "debug" (the default)
    and to [console.error] at "error", whose text names the selector in
    double quotes and says whether a parent was given, with the parent as
    second argument.  With at least one match it leaves the console as it
    was. *)
Theorem getMultipleHtmlElements_diagnostics props c matches :
  querySelectorAll (parent_or_document (parent props)) (selector props)
    = Normal matches →
  (getMultipleHtmlElements props c).2
    = match matches with
      | _ :: _ => c
      | [] =>
          c ++ match default log_debug (log props) with
               | log_false => []
               | log_debug =>
                   [{| call_method := console_debug;
                       call_message :=
                         "DEBUG: No elements found with selector " +:+ dquote
                           +:+ selector props +:+ dquote +:+ " in "
                           +:+ match parent props with
                               | Some _ => "the specified parent element:"
                               | None => "the document."
                               end;
                       call_extra := parent props |}]
               | log_error =>
                   [{| call_method := console_error;
                       call_message :=
                         "ERROR: No elements found with selector " +:+ dquote
                           +:+ selector props +:+ dquote +:+ " in "
                           +:+ match parent props with
                               | Some _ => "the specified parent element:"
                               | None => "the document."
                               end;
                       call_extra := parent props |}]
               end
      end.
Proof.
  intros Hq. rewrite getMultipleHtmlElements_by_outcome, Hq.
  destruct matches as [|first rest]; [|done]. cbn [snd].
  destruct (default log_debug (log props)); by rewrite ?app_nil_r.
Qed.

(** X2.  What a result of a finder says about the query: the Element
    Finder returns [null] exactly when the query ran and matched nothing,
    a node exactly when that node is the first match, and throws exactly
    what the query throws; the Multi-Element Finder returns [null] exactly
    when nothing matched and an array exactly when it is the non-empty
    list of all matches. *)
Theorem finder_result_iff_query props c :
  let outcome :=
    querySelectorAll (parent_or_document (parent props)) (selector props) in
  ((getHtmlElement props c).1 = Normal None ↔ outcome = Normal [])
  ∧ (∀ n, (getHtmlElement props c).1 = Normal (Some n)
          ↔ ∃ rest, outcome = Normal (n :: rest))
  ∧ (∀ e, (getHtmlElement props c).1 = Throw e ↔ outcome = Throw e)
  ∧ ((getMultipleHtmlElements props c).1 = Normal None ↔ outcome = Normal [])
  ∧ (∀ l, (getMultipleHtmlElements props c).1 = Normal (Some l)
          ↔ outcome = Normal l ∧ l ≠ [])
  ∧ (∀ e, (getMultipleHtmlElements props c).1 = Throw e ↔ outcome = Throw e).
Proof.
  cbn zeta.
  rewrite getHtmlElement_by_outcome, getMultipleHtmlElements_by_outcome.
  destruct (querySelectorAll _ _) as [[|first rest]|e]; cbn [fst];
    split_and!; try intros ?; naive_solver.
Qed.

(** X3.  On the same options the two finders agree: the Element Finder
    returns the first node of the array that the Multi-Element Finder
    returns, [null] when that one returns [null], and throws what that one
    throws. *)
Theorem getHtmlElement_is_head_of_getMultipleHtmlElements props c c' :
  (getHtmlElement props c).1
    = match (getMultipleHtmlElements props c').1 with
      | Normal (Some l) => Normal (head l)
      | Normal None => Normal None
      | Throw e => Throw e
      end.
Proof.
  rewrite getHtmlElement_by_outcome, getMultipleHtmlElements_by_outcome.
  by destruct (querySelectorAll _ _) as [[|first rest]|e].
Qed.

(** X4.  The [log] option and the state of the console never change what
    a finder returns. *)
Theorem finder_result_independent_of_log sel par lg lg' c c' :
  (getHtmlElement {| selector := sel; parent := par; log := lg |} c).1
    = (getHtmlElement {| selector := sel; parent := par; log := lg' |} c').1
  ∧ (getMultipleHtmlElements {| selector := sel; parent := par; log := lg |} c).1
    = (getMultipleHtmlElements {| selector := sel; parent := par; log := lg' |} c').1.
Proof.
  rewrite !getHtmlElement_by_outcome, !getMultipleHtmlElements_by_outcome. cbn.
  by destruct (querySelectorAll _ _) as [[|first rest]|e].
Qed.

(** X5.  A finder only ever appends to the console, at most one call, and
    only when it returns [null]: the calls made before are kept, and a
    call that returns a node or an array, or throws, adds nothing.  The
    same holds for the locator of the active script. *)
Theorem finders_append_at_most_one_call props c :
  (∃ added, (getHtmlElement props c).2 = c ++ added
            ∧ length added ≤ 1
            ∧ ((getHtmlElement props c).1 ≠ Normal None → added = []))
  ∧ (∃ added, (getMultipleHtmlElements props c).2 = c ++ added
              ∧ length added ≤ 1
              ∧ ((getMultipleHtmlElements props c).1 ≠ Normal None → added = []))
  ∧ (∃ added, (getActiveScript c).2 = c ++ added
              ∧ length added ≤ 1
              ∧ ((getActiveScript c).1 ≠ Normal None → added = [])).
Proof.
  unfold getActiveScript.
  rewrite !getHtmlElement_by_outcome, getMultipleHtmlElements_by_outcome. cbn.
  assert (∀ P : Prop,
            ∃ added : Console, c = c ++ added ∧ length added ≤ 1 ∧ (P → added = []))
    as Hnone.
  { intros P. exists []. rewrite app_nil_r. split_and!; [done|cbn; lia|done]. }
  assert (∀ A (call : ConsoleCall Node),
            ∃ added : Console,
              c ++ [call] = c ++ added ∧ length added ≤ 1
              ∧ (@Normal Exn (option A) None ≠ Normal None → added = []))
    as Hone.
  { intros A call. exists [call]. split_and!; [done|cbn; lia|done]. }
  split_and!.
  - destruct (querySelectorAll _ _) as [[|first rest]|e]; cbn; [|by apply Hnone..].
    destruct (default log_debug (log props)); [apply Hone..|by apply Hnone].
  - destruct (querySelectorAll _ _) as [[|first rest]|e]; cbn; [|by apply Hnone..].
    destruct (default log_debug (log props)); [apply Hone..|by apply Hnone].
  - destruct (querySelectorAll _ _) as [[|first rest]|e]; cbn; [|by apply Hnone..].
    apply Hone.
Qed.

(** X6.  The text of the Element Finder's diagnostic: the level in capital
    letters, the selector between double quotes, and the place that was
    searched. *)
Theorem getHtmlElement_message_text props c :
  querySelectorAll (parent_or_document (parent props)) (selector props) = Normal [] →
  default log_debug (log props) ≠ log_false →
  call_message <$> last (getHtmlElement props c).2
    = Some ((match default log_debug (log props) with
             | log_error => "ERROR"
             | _ => "DEBUG"
             end)
            +:+ ": Element with selector " +:+ dquote +:+ selector props
            +:+ dquote +:+ " not found in "
            +:+ match parent props with
                | Some _ => "the specified parent element:"
                | None => "the document."
                end).
Proof.
  intros Hq Hlog. rewrite getHtmlElement_by_outcome, Hq. cbn [snd].
  destruct (default log_debug (log props)); [| |done]; by rewrite last_snoc.
Qed.

Lemma length_append (u s : string) :
  String.length (u +:+ s) = String.length u + String.length s.
Proof.
  induction u as [|a u IH]; [done|].
  change (String a u +:+ s) with (String a (u +:+ s)). cbn. by f_equal.
Qed.

Lemma append_cancel_r (u v s : string) : u +:+ s = v +:+ s → u = v.
Proof.
  intros Heq.
  assert (String.length u = String.length v) as Hlen.
  { apply (f_equal String.length) in Heq.
    rewrite !length_append in Heq. lia. }
  revert v Heq Hlen. induction u as [|a u IH]; intros [|b v]; try done.
  change (String a u +:+ s = String b v +:+ s → String.length (String a u)
            = String.length (String b v) → String a u = String b v)
    with (String a (u +:+ s) = String b (v +:+ s) → S (String.length u)
            = S (String.length v) → String a u = String b v).
  intros [= -> Heq] [= Hlen]. f_equal. by apply IH.
Qed.

(** X7.  The selector of the locator determines the module URL: modules at
    different URLs never look for the same selector. *)
Theorem script_selector_inj (url url' : string) :
  url ≠ url' → script_selector url ≠ script_selector url'.
Proof.
  intros Hne Heq. apply Hne, (append_cancel_r _ _ (dquote +:+ "]")).
  unfold script_selector in Heq. vm_compute String.append in Heq.
  injection Heq as Heq. exact Heq.
Qed.

End finder_further_properties.

(** ** The style patcher *)

Section style_further_properties.
Context `{CssEngine}.
Implicit Types (s : CSSStyleDeclaration) (element : HTMLElement)
  (styles : style_map) (key name : string).

(** *** What the patch captures *)




(** *** What the patch writes *)

Lemma elem_of_Object_keys key (v : jsval) styles :
  (key, v) ∈ styles → key ∈ Object_keys styles.
Proof. intros Hin. apply list_elem_of_fmap. by exists (key, v). Qed.

Lemma untouched_by_others_elem r (keys : list string) key (names : list string) n :
  untouched_by_others r keys key names → n ∈ names →
  untouched_by_others r keys key [n].
Proof.
  unfold untouched_by_others. intros Hothers Hn.
  eapply Forall_impl; [exact Hothers|]. cbn. intros k Hk Hne.
  specialize (Hk Hne). rewrite Forall_forall in Hk.
  apply Forall_cons. split; [by apply Hk|done].
Qed.

(** The declaration of a longhand after the patch, when one key reaches
    it and no other key writes it. *)
Lemma setStyle_of_longhand r element styles key v property :
  NoDup (Object_keys styles) →
  (key, v) ∈ styles →
  addressed_property r key = Some property →
  is_longhand property = true →
  untouched_by_others r (Object_keys styles) key [property] →
  declarations (style (setStyle_of r element styles).1) !! property
    = if truthy v && negb (String.eqb (to_CSSOMString v) "")
      then match parse_value property (to_CSSOMString v) with
           | Some v' => Some (v', false)
           | None => declarations (style element) !! property
           end
      else None.
Proof.
  intros Hnd Hin Hkey Hlong Hothers.
  destruct (setStyle_of_at_key r element styles key property Hnd
              (elem_of_Object_keys _ _ _ Hin) Hothers) as [prev ->].
  destruct (patch_of_write r styles element prev key property Hkey)
    as (name & w & Hname & Hw & ->).
  rewrite (setProperty_longhand _ _ _ _ Hname Hlong), Hw.
  rewrite (obj_get_elem _ _ _ Hnd Hin).
  destruct (truthy v); [|done].
  by destruct (String.eqb (to_CSSOMString v) "").
Qed.

(** X10.  A key with a truthy value (a non-empty string, a number other
    than 0 and NaN; the text of a number is never empty) that the grammar
    of the property accepts, which names a longhand or custom property in
    the way the revision writes it, leaves the property set to the
    serialisation of the value, without the important flag, provided that
    no other key of the map writes the property (a shorthand of it
    included).  Keys of the typed revision as in X9. *)
Theorem accepted_value_sets_property
    (r : revision) element styles key (v : jsval) v' property :
  NoDup (Object_keys styles) →
  (key, v) ∈ styles →
  truthy v = true →
  to_CSSOMString v ≠ "" →
  addressed_property r key = Some property →
  is_longhand property = true →
  parse_value property (to_CSSOMString v) = Some v' →
  forallb (patchable r) (Object_keys styles) = true →
  untouched_by_others r (Object_keys styles) key [property] →
  declarations (style (setStyle_of r element styles).1) !! property
    = Some (v', false)
  ∧ getPropertyValue property (style (setStyle_of r element styles).1) = v'.
Proof.
  intros Hnd Hin Hv Htext%String.eqb_neq Hkey Hlong Hparse _ Hothers.
  pose proof (setStyle_of_longhand r element styles key v property
                Hnd Hin Hkey Hlong Hothers) as Hset.
  rewrite Hv, Htext, Hparse in Hset. split; [done|].
  unfold getPropertyValue, is_longhand in *. cbn zeta.
  rewrite (addressed_property_name _ _ _ Hkey), Hset.
  by destruct (shorthand_longhands property).
Qed.

(** X11.  A truthy value that the grammar of a longhand rejects is ignored
    without an error: the property keeps the declaration it had (keys as
    in X10). *)
Theorem rejected_value_is_ignored
    (r : revision) element styles key (v : jsval) property :
  NoDup (Object_keys styles) →
  (key, v) ∈ styles →
  truthy v = true →
  to_CSSOMString v ≠ "" →
  addressed_property r key = Some property →
  is_longhand property = true →
  parse_value property (to_CSSOMString v) = None →
  forallb (patchable r) (Object_keys styles) = true →
  untouched_by_others r (Object_keys styles) key [property] →
  declarations (style (setStyle_of r element styles).1) !! property
    = declarations (style element) !! property.
Proof.
  intros Hnd Hin Hv Htext%String.eqb_neq Hkey Hlong Hparse _ Hothers.
  by rewrite (setStyle_of_longhand r element styles key v property),
    Hv, Htext, Hparse.
Qed.

(** X21.  A key with a falsy value (the empty string, 0, NaN,
    [undefined]) that names a property in the way the revision writes it
    leaves the element without a declaration of that property (for a
    shorthand: of any of its longhands), provided that no other key of the
    map writes one of these declarations.  Keys of the typed revision as
    in X9. *)
Theorem clearing_value_removes_property
    (r : revision) element styles key (v : jsval) property :
  NoDup (Object_keys styles) →
  (key, v) ∈ styles →
  truthy v = false →
  addressed_property r key = Some property →
  forallb (patchable r) (Object_keys styles) = true →
  untouched_by_others r (Object_keys styles) key (declaration_names property) →
  Forall (λ n, declarations (style (setStyle_of r element styles).1) !! n = None)
    (declaration_names property)
  ∧ getPropertyValue property (style (setStyle_of r element styles).1) = "".
Proof.
  intros Hnd Hin Hv Hkey _ Hothers.
  assert (Forall (λ n, declarations (style (setStyle_of r element styles).1) !! n
                       = None) (declaration_names property)) as Hgone.
  { apply Forall_forall. intros n Hn.
    destruct (setStyle_of_at_key r element styles key n Hnd
                (elem_of_Object_keys _ _ _ Hin)
                (untouched_by_others_elem _ _ _ _ _ Hothers Hn)) as [prev ->].
    destruct (patch_of_write r styles element prev key property Hkey)
      as (name & w & Hname & Hw & ->).
    apply (setProperty_clears _ _ _ property); [done| |done].
    by rewrite Hw, (obj_get_elem _ _ _ Hnd Hin), Hv. }
  split; [done|]. rewrite Forall_forall in Hgone.
  unfold getPropertyValue, declaration_names in *. cbn zeta.
  rewrite (addressed_property_name _ _ _ Hkey).
  destruct (shorthand_longhands property) as [|l ls].
  - rewrite (Hgone property); [done|by left].
  - cbn. rewrite (Hgone l); [done|by left].
Qed.

(** X12.  The patch leaves alone every declaration that no key of the
    style map writes in the way of the revision (a key that names a
    shorthand writes the declarations of its longhands).  Keys of the
    typed revision as in X9. *)
Theorem patch_keeps_other_properties (r : revision) element styles name :
  forallb (patchable r) (Object_keys styles) = true →
  Forall (λ k, name ∉ written_by r k) (Object_keys styles) →
  declarations (style (setStyle_of r element styles).1) !! name
    = declarations (style element) !! name.
Proof.
  intros _ Hothers. rewrite Forall_forall in Hothers.
  by rewrite setStyle_of_fold, fold_patch_of_other.
Qed.

(** X13.  The string-keyed revision never puts a property on the style
    object itself: whatever the keys, its patch only goes through
    [setProperty]. *)
Theorem string_keyed_patch_adds_no_own_property element styles :
  expandos (style (StringKeys.setStyle element styles).1) = expandos (style element).
Proof.
  change (StringKeys.setStyle element styles)
    with (setStyle_of string_keys element styles).
  rewrite setStyle_of_fold. cbn [patch_of].
  generalize (@nil (string * string)). revert element.
  induction (Object_keys styles) as [|key keys IH]; intros element prev; [done|].
  cbn [fold_left]. unfold StringKeys.patch at 2. rewrite IH. cbn.
  apply setProperty_expandos.
Qed.

(** X14.  A key that [setProperty] does not know as a property (neither a
    supported name in any letter case nor a custom property) is ignored by
    the string-keyed revision: with only such keys the patch leaves the
    element exactly as it was. *)
Theorem string_keyed_patch_ignores_unknown_names element styles :
  Forall (λ k, reached_by_setProperty k = None) (Object_keys styles) →
  (StringKeys.setStyle element styles).1 = element.
Proof.
  change (StringKeys.setStyle element styles)
    with (setStyle_of string_keys element styles).
  rewrite setStyle_of_fold. cbn [patch_of].
  generalize (@nil (string * string)). revert element.
  induction (Object_keys styles) as [|key keys IH]; intros element prev Hkeys;
    [done|].
  apply Forall_cons in Hkeys as [Hkey Hkeys].
  cbn [fold_left]. unfold StringKeys.patch at 2. rewrite IH by done.
  rewrite setProperty_unreached by done. by destruct element.
Qed.

(** *** What revert writes *)

(** X15.  Revert leaves alone every declaration that no captured key
    writes as an attribute of the style object (a key that names a
    shorthand writes the declarations of its longhands), for any handle
    whose keys are not members of the style object itself and for any
    state of the element. *)
Theorem revert_keeps_other_properties (h : RevertHandle) element name :
  forallb assignable (Object_keys (prevValues h)) = true →
  Forall (λ k, name ∉ written_by typed_keys k) (Object_keys (prevValues h)) →
  declarations (style (revert h element)) !! name
    = declarations (style element) !! name.
Proof. intros _ Hkeys. unfold revert. cbn. by apply Object_assign_frame. Qed.

Lemma assignment_never_writes_custom key name :
  no_custom_names →
  is_custom_property name = true →
  name ∉ written_by typed_keys key.
Proof.
  unfold no_custom_names, written_by. cbn [addressed_property].
  intros Htable Hname. rewrite Forall_forall in Htable.
  destruct (attribute_property key) as [a|] eqn:Ha; [|by intros ?%elem_of_nil].
  cbn. destruct (reached_by_setProperty a) as [p|] eqn:Hp;
    [|by intros ?%elem_of_nil].
  unfold attribute_property in Ha. destruct (own_member key); [done|].
  apply find_some in Ha as [Ha%list_elem_of_In _].
  destruct (Htable a Ha) as [Hcustom _].
  assert (is_custom_property p = false) as Hpc.
  { apply reached_by_setProperty_Some in Hp as ->. unfold css_name.
    by rewrite Hcustom, is_custom_property_lowercase. }
  assert (p ∈ supported_properties) as Hsupported.
  { unfold reached_by_setProperty in Hp. cbn zeta in Hp.
    destruct (is_custom_property (css_name a) || is_supported (css_name a))
      eqn:Hor; [|done].
    injection Hp as <-. rewrite Hpc in Hor. cbn in Hor.
    by apply bool_decide_eq_true in Hor. }
  destruct (Htable p Hsupported) as [_ Hlong]. rewrite Forall_forall in Hlong.
  unfold declaration_names, shorthand_longhands. rewrite Hpc.
  destruct (longhands p) as [|l ls] eqn:Hls.
  - intros ->%list_elem_of_singleton. congruence.
  - intros Hin. specialize (Hlong name Hin). congruence.
Qed.

(** X16.  Assignment to the style object never reaches a custom property
    (no supported property or longhand having a name that starts with two
    hyphens): the typed revision leaves every custom property as it was,
    whatever the keys of the style map, and so does revert, for any
    handle.  The keys are taken not to be members of the style object
    itself. *)
Theorem custom_properties_are_out_of_reach element styles (h : RevertHandle) name :
  no_custom_names →
  is_custom_property name = true →
  forallb assignable (Object_keys styles) = true →
  forallb assignable (Object_keys (prevValues h)) = true →
  declarations (style (TypedKeys.setStyle element styles).1) !! name
    = declarations (style element) !! name
  ∧ declarations (style (revert h element)) !! name
    = declarations (style element) !! name.
Proof.
  intros Htable Hname _ _. split.
  - change (TypedKeys.setStyle element styles)
      with (setStyle_of typed_keys element styles).
    rewrite setStyle_of_fold, fold_patch_of_other; [done|].
    intros k _. by apply assignment_never_writes_custom.
  - unfold revert. cbn. apply Object_assign_frame, Forall_forall.
    intros k _. by apply assignment_never_writes_custom.
Qed.

(** *** Patch and revert together *)

(** X17.  Revert writes the captured values whatever was done to the
    element since the patch.  For keys that each name one and the same
    longhand by name and by attribute, no two naming the same property,
    and an element whose declarations held serialised values: after revert
    the property of a key has the value it had before the patch, without
    the important flag (also when it had the flag before), and is absent
    if it was absent. *)
Theorem revert_overrides_later_changes (r : revision) element styles key element' :
  NoDup (css_name <$> Object_keys styles) →
  forallb restorable (Object_keys styles) = true →
  serialised (style element) →
  key ∈ Object_keys styles →
  declarations (style (revert (setStyle_of r element styles).2 element'))
    !! css_name key
    = (λ d, (d.1, false)) <$> declarations (style element) !! css_name key.
Proof.
  intros Hnd Hkeys Hser Hkey. apply revert_restorable_lookup; [done..|].
  intros v i. apply Hser.
Qed.

(** X18.  Patches nest: a second patch made on the patched element and
    reverted before the first one leaves, after both reverts, every
    property of the element with its value from before the first patch.
    (Keys as in X17 for both style maps; the two revisions may be mixed.) *)
Theorem nested_patches_revert_in_reverse_order
    (r1 r2 : revision) element styles1 styles2 name :
  NoDup (css_name <$> Object_keys styles1) →
  forallb restorable (Object_keys styles1) = true →
  NoDup (css_name <$> Object_keys styles2) →
  forallb restorable (Object_keys styles2) = true →
  serialised (style element) →
  let run1 := setStyle_of r1 element styles1 in
  let run2 := setStyle_of r2 run1.1 styles2 in
  fst <$> declarations (style (revert run1.2 (revert run2.2 run2.1))) !! name
    = fst <$> declarations (style element) !! name.
Proof.
  intros Hnd1 Hkeys1 Hnd2 Hkeys2 Hser. cbn zeta.
  destruct (decide (name ∈ css_name <$> Object_keys styles1)) as [Hin1|Hout1].
  { apply list_elem_of_fmap in Hin1 as (key & -> & Hkey).
    rewrite revert_restorable_lookup; [|done..|intros v i; apply Hser].
    by destruct (declarations (style element) !! css_name key) as [[v i]|]. }
  rewrite revert_restorable_frame by done.
  destruct (decide (name ∈ css_name <$> Object_keys styles2)) as [Hin2|Hout2].
  - apply list_elem_of_fmap in Hin2 as (key & -> & Hkey).
    rewrite revert_restorable_lookup; [|done..|].
    + rewrite patch_restorable_frame by done.
      by destruct (declarations (style element) !! css_name key) as [[v i]|].
    + intros v i. rewrite patch_restorable_frame by done. apply Hser.
  - by rewrite revert_restorable_frame, !patch_restorable_frame.
Qed.

(** X19.  For a captured key that is neither an attribute nor another
    member of the style object (a custom property, a misspelt name),
    revert puts an ordinary property of that name on the style object,
    holding the captured value.  (No key of the handle being a member of
    the style object itself.) *)
Theorem revert_puts_own_property_for_other_keys (h : RevertHandle) element key v :
  NoDup (Object_keys (prevValues h)) →
  forallb assignable (Object_keys (prevValues h)) = true →
  (key, v) ∈ prevValues h →
  attribute_property key = None →
  expandos (style (revert h element)) !! key = Some (js_string v).
Proof.
  intros Hnd _. revert Hnd.
  unfold revert. cbn [style]. generalize (style element) as s.
  unfold Object_keys.
  induction (prevValues h) as [|[k w] source IH]; intros s Hnd Hin Hkey.
  { by apply elem_of_nil in Hin. }
  rewrite fmap_cons in Hnd. apply NoDup_cons in Hnd as [Hk Hnd].
  rewrite Object_assign_cons.
  apply elem_of_cons in Hin as [[= <- <-]|Hin]; [|by apply IH].
  rewrite Object_assign_expandos_other by done.
  unfold style_assign. rewrite Hkey. cbn. apply lookup_insert_eq.
Qed.

End style_further_properties.

(** *** The further properties on the sample page and engine *)

Module FurtherExamples.
Import SamplePage.
#[local] Existing Instance page_host.
#[local] Existing Instance sample_engine.

Lemma getMultipleHtmlElements_diagnostics_witness :
  (getMultipleHtmlElements (paragraphs_of (Some (element div_el)) (Some log_error)) []).2
    = [{| call_method := console_error;
          call_message :=
            "ERROR: No elements found with selector " +:+ dquote +:+ "p" +:+ dquote
              +:+ " in the specified parent element:";
          call_extra := Some (element div_el) |}]
  ∧ (getMultipleHtmlElements (spans_of None None) []).2 = [].
Proof.
  split.
  - exact (getMultipleHtmlElements_diagnostics
             (paragraphs_of (Some (element div_el)) (Some log_error)) [] [] eq_refl).
  - exact (getMultipleHtmlElements_diagnostics (spans_of None None) []
             [element span_el; element second_span_el] eq_refl).
Defined.

Lemma getHtmlElement_message_text_witness :
  call_message <$> last (getHtmlElement (paragraphs_of None None) []).2
    = Some ("DEBUG: Element with selector " +:+ dquote +:+ "p" +:+ dquote
              +:+ " not found in the document.").
Proof.
  apply (getHtmlElement_message_text (H := page_host) (paragraphs_of None None) []).
  - reflexivity.
  - discriminate.
Defined.

Lemma script_selector_inj_witness :
  script_selector "https://example.com/app.js"
    ≠ script_selector "https://example.com/other.js".
Proof. apply script_selector_inj. discriminate. Defined.


Local Ltac by_evaluation :=
  unfold untouched_by_others, no_custom_names;
  apply (bool_decide_unpack _); reflexivity.


Lemma accepted_value_sets_property_witness :
  (declarations (style (TypedKeys.setStyle important_element camel_styles).1)
     !! "background-color" = Some ("blue", false)
   ∧ getPropertyValue "background-color"
       (style (TypedKeys.setStyle important_element camel_styles).1) = "blue")
  ∧ (declarations (style (StringKeys.setStyle important_element custom_styles).1)
       !! "--gap" = Some ("2px", false)
     ∧ getPropertyValue "--gap"
         (style (StringKeys.setStyle important_element custom_styles).1) = "2px")
  ∧ (declarations (style (TypedKeys.setStyle changed_element number_styles).1)
       !! "-webkit-line-clamp" = Some ("3", false)
     ∧ getPropertyValue "-webkit-line-clamp"
         (style (TypedKeys.setStyle changed_element number_styles).1) = "3").
Proof.
  split; [|split].
  - exact (accepted_value_sets_property typed_keys important_element camel_styles
             "backgroundColor" (js_string "blue") "blue" "background-color"
             ltac:(by_evaluation)
             ltac:(by_evaluation)
             ltac:(reflexivity)
             ltac:(discriminate)
             ltac:(reflexivity)
             ltac:(reflexivity)
             ltac:(reflexivity)
             ltac:(reflexivity)
             ltac:(by_evaluation)).
  - exact (accepted_value_sets_property string_keys important_element custom_styles
             "--gap" (js_string "2px") "2px" "--gap"
             ltac:(by_evaluation)
             ltac:(by_evaluation)
             ltac:(reflexivity)
             ltac:(discriminate)
             ltac:(reflexivity)
             ltac:(reflexivity)
             ltac:(reflexivity)
             ltac:(reflexivity)
             ltac:(by_evaluation)).
  - exact (accepted_value_sets_property typed_keys changed_element number_styles
             "webkitLineClamp" (js_number "3") "3" "-webkit-line-clamp"
             ltac:(by_evaluation)
             ltac:(by_evaluation)
             ltac:(reflexivity)
             ltac:(discriminate)
             ltac:(reflexivity)
             ltac:(reflexivity)
             ltac:(reflexivity)
             ltac:(reflexivity)
             ltac:(by_evaluation)).
Defined.

Lemma rejected_value_is_ignored_witness :
  declarations
    (style (StringKeys.setStyle (H := strict_engine) styled_element bogus_styles).1)
    !! "color" = Some ("black", false).
Proof.
  exact (rejected_value_is_ignored (H := strict_engine) string_keys styled_element
           bogus_styles "color" (js_string "bogus") "color"
             ltac:(by_evaluation)
             ltac:(by_evaluation)
             ltac:(reflexivity)
             ltac:(discriminate)
             ltac:(reflexivity)
             ltac:(reflexivity)
             ltac:(reflexivity)
             ltac:(reflexivity)
             ltac:(by_evaluation)).
Defined.

Lemma clearing_value_removes_property_witness :
  (Forall (λ n, declarations
                  (style (StringKeys.setStyle styled_element
                            hyphenated_clearing_styles).1) !! n = None)
     ["background-color"]
   ∧ getPropertyValue "background-color"
       (style (StringKeys.setStyle styled_element hyphenated_clearing_styles).1)
     = "")
  ∧ (Forall (λ n, declarations
                    (style (TypedKeys.setStyle changed_element number_styles).1)
                    !! n = None)
       ["margin-top"]
     ∧ getPropertyValue "margin-top"
         (style (TypedKeys.setStyle changed_element number_styles).1) = "")
  ∧ (Forall (λ n, declarations
                    (style (StringKeys.setStyle changed_element
                              margin_clearing_styles).1) !! n = None)
       ["margin-top"; "margin-right"; "margin-bottom"; "margin-left"]
     ∧ getPropertyValue "margin"
         (style (StringKeys.setStyle changed_element margin_clearing_styles).1)
       = "").
Proof.
  split; [|split].
  - exact (clearing_value_removes_property string_keys styled_element
             hyphenated_clearing_styles "background-color" (js_string "")
             "background-color"
             ltac:(by_evaluation)
             ltac:(by_evaluation)
             ltac:(reflexivity)
             ltac:(reflexivity)
             ltac:(reflexivity)
             ltac:(by_evaluation)).
  - exact (clearing_value_removes_property typed_keys changed_element
             number_styles "marginTop" (js_number "0") "margin-top"
             ltac:(by_evaluation)
             ltac:(by_evaluation)
             ltac:(reflexivity)
             ltac:(reflexivity)
             ltac:(reflexivity)
             ltac:(by_evaluation)).
  - exact (clearing_value_removes_property string_keys changed_element
             margin_clearing_styles "margin" (js_string "") "margin"
             ltac:(by_evaluation)
             ltac:(by_evaluation)
             ltac:(reflexivity)
             ltac:(reflexivity)
             ltac:(reflexivity)
             ltac:(by_evaluation)).
Defined.

Lemma patch_keeps_other_properties_witness :
  declarations (style (TypedKeys.setStyle important_element camel_styles).1) !! "color"
    = Some ("black", false).
Proof.
  exact (patch_keeps_other_properties typed_keys important_element camel_styles
           "color"
             ltac:(reflexivity)
             ltac:(by_evaluation)).
Defined.

Lemma string_keyed_patch_ignores_unknown_names_witness :
  (StringKeys.setStyle important_element camel_styles).1 = important_element.
Proof.
  apply string_keyed_patch_ignores_unknown_names.
  apply (bool_decide_unpack _). reflexivity.
Defined.

Lemma revert_keeps_other_properties_witness :
  declarations
    (style (revert (TypedKeys.setStyle important_element camel_styles).2
              changed_element)) !! "color"
    = None.
Proof.
  exact (revert_keeps_other_properties
           (TypedKeys.setStyle important_element camel_styles).2 changed_element
           "color"
             ltac:(reflexivity)
             ltac:(by_evaluation)).
Defined.

Lemma custom_properties_are_out_of_reach_witness :
  declarations (style (TypedKeys.setStyle (inline_style [("--gap", "1px")])
                         custom_styles).1) !! "--gap"
    = Some ("1px", false)
  ∧ declarations
      (style (revert (StringKeys.setStyle styled_element custom_styles).2
                (inline_style [("--gap", "1px")]))) !! "--gap"
    = Some ("1px", false).
Proof.
  exact (custom_properties_are_out_of_reach (inline_style [("--gap", "1px")])
           custom_styles (StringKeys.setStyle styled_element custom_styles).2
           "--gap"
             ltac:(by_evaluation)
             ltac:(reflexivity)
             ltac:(reflexivity)
             ltac:(reflexivity)).
Defined.

Lemma important_element_serialised : serialised (style important_element).
Proof.
  intros name v important Hlook. split; [|done].
  apply elem_of_list_to_map_2, list_elem_of_In in Hlook. cbn in Hlook.
  by destruct Hlook as [[= <- <- <-]|[[= <- <- <-]|[]]].
Qed.

Lemma revert_overrides_later_changes_witness :
  declarations
    (style (revert (StringKeys.setStyle important_element hyphenated_styles).2
              changed_element)) !! "background-color"
    = Some ("green", false)
  ∧ declarations
      (style (revert (TypedKeys.setStyle important_element hyphenated_styles).2
                changed_element)) !! "margin-top"
    = None.
Proof.
  split.
  - exact (revert_overrides_later_changes string_keys important_element
             hyphenated_styles "background-color" changed_element
             ltac:(by_evaluation)
             ltac:(reflexivity)
             ltac:(apply important_element_serialised)
             ltac:(by_evaluation)).
  - exact (revert_overrides_later_changes typed_keys important_element
             hyphenated_styles "margin-top" changed_element
             ltac:(by_evaluation)
             ltac:(reflexivity)
             ltac:(apply important_element_serialised)
             ltac:(by_evaluation)).
Defined.

Lemma nested_patches_revert_in_reverse_order_witness :
  let run1 := StringKeys.setStyle styled_element hyphenated_styles in
  let run2 := TypedKeys.setStyle run1.1 second_styles in
  (getPropertyValue "color" (style run2.1) = "blue"
   ∧ getPropertyValue "background-color" (style run2.1) = "blue")
  ∧ fst <$> declarations (style (revert run1.2 (revert run2.2 run2.1))) !! "color"
    = Some "black"
  ∧ fst <$> declarations (style (revert run1.2 (revert run2.2 run2.1))) !! "float"
    = None.
Proof.
  cbn zeta. split; [split; reflexivity|]. split.
  - exact (nested_patches_revert_in_reverse_order string_keys typed_keys
             styled_element hyphenated_styles second_styles "color"
             ltac:(by_evaluation)
             ltac:(reflexivity)
             ltac:(by_evaluation)
             ltac:(reflexivity)
             ltac:(apply PatcherExamples.styled_element_serialised)).
  - exact (nested_patches_revert_in_reverse_order string_keys typed_keys
             styled_element hyphenated_styles second_styles "float"
             ltac:(by_evaluation)
             ltac:(reflexivity)
             ltac:(by_evaluation)
             ltac:(reflexivity)
             ltac:(apply PatcherExamples.styled_element_serialised)).
Defined.

Lemma revert_puts_own_property_for_other_keys_witness :
  expandos
    (style (revert (StringKeys.setStyle styled_element custom_styles).2
              styled_element)) !! "--gap"
    = Some (js_string "").
Proof.
  exact (revert_puts_own_property_for_other_keys
           (StringKeys.setStyle styled_element custom_styles).2 styled_element
           "--gap" ""
             ltac:(by_evaluation)
             ltac:(reflexivity)
             ltac:(by_evaluation)
             ltac:(reflexivity)).
Defined.

End FurtherExamples.
